(** * Munger Snap: the four-filters scoring engine of [logic.py]

    A shallow embedding of [t006_munger_snap/logic.py] and the properties of
    its scorers, bias ranker, inversion advisor and posture aggregator.

    Modelling conventions.
    - A Python [str] is a Rocq [string].  The embedding is exact for texts made
      of ASCII characters, the only ones that the keyword tables and the
      regular expressions of the module tell apart; a character above 127 is
      carried along as a case-less character that is neither a blank, a digit
      nor a letter.  The two message constants that hold a dash outside ASCII
      keep it as its UTF-8 bytes.
    - A Python [dict] that is iterated is an association list in insertion
      order.
    - A Python [float] is a [spec_float] of the standard library (binary64
      values with both zeros and both infinities); conversions round to
      nearest, ties to even.
    - Operations that can raise ([seq[0]], [/], [float()], [dict[key]], the
      formatting of [None]) return a [result]; the functions that call them
      are written in the error monad. *)

From Stdlib Require Import ZArith List String Ascii Bool Lia Permutation.
From Stdlib Require Import Floats.SpecFloat.
Import ListNotations.

Local Open Scope list_scope.
Local Open Scope string_scope.

(* ================================================================== *)
(** * Python primitives *)
(* ================================================================== *)

Module Py.

(** ** Exceptions *)

Inductive exn : Type :=
| IndexError
| KeyError
| ValueError
| ZeroDivisionError
| OverflowError
| TypeError.

Inductive result (A : Type) : Type :=
| Ok (a : A)
| Raise (e : exn).

Arguments Ok {A} a.
Arguments Raise {A} e.

Definition bind {A B : Type} (m : result A) (k : A -> result B) : result B :=
  match m with
  | Ok a => k a
  | Raise e => Raise e
  end.

Definition is_ok {A : Type} (m : result A) : bool :=
  match m with Ok _ => true | Raise _ => false end.

(** ** Characters *)

Definition code (c : ascii) : N := N_of_ascii c.

Definition between (lo hi : N) (c : ascii) : bool :=
  (N.leb lo (code c) && N.leb (code c) hi)%bool.

(** [str.isspace] on one character: tab, line feed, vertical tab, form feed,
    carriage return, the four separators 28..31 and the space. *)
Definition isspace (c : ascii) : bool :=
  (between 9 13 c || between 28 31 c || N.eqb (code c) 32)%bool.

Definition isdigit (c : ascii) : bool := between 48 57 c.
Definition isupper (c : ascii) : bool := between 65 90 c.
Definition islower (c : ascii) : bool := between 97 122 c.

Definition lower_char (c : ascii) : ascii :=
  if isupper c then ascii_of_N (code c + 32) else c.

Definition newline : ascii := "010"%char.

(** ** Strings *)

(** [s.lower()] *)
Fixpoint lower (s : string) : string :=
  match s with
  | EmptyString => EmptyString
  | String c s' => String (lower_char c) (lower s')
  end.

Fixpoint lstrip (s : string) : string :=
  match s with
  | EmptyString => EmptyString
  | String c s' => if isspace c then lstrip s' else s
  end.

Fixpoint rstrip (s : string) : string :=
  match s with
  | EmptyString => EmptyString
  | String c s' =>
      match rstrip s' with
      | EmptyString => if isspace c then EmptyString else String c EmptyString
      | r => String c r
      end
  end.

(** [s.strip()] *)
Definition strip (s : string) : string := rstrip (lstrip s).

(** Truth value of a string: [if s], [if not s]. *)
Definition truthy (s : string) : bool :=
  match s with EmptyString => false | String _ _ => true end.

(** [k in t] for strings: [k] occurs in [t] as a contiguous run. *)
Fixpoint str_in (k t : string) : bool :=
  (prefix k t ||
   match t with
   | EmptyString => false
   | String _ t' => str_in k t'
   end)%bool.

(** [x in xs] for a list of strings. *)
Definition list_in (x : string) (xs : list string) : bool :=
  existsb (String.eqb x) xs.

(** What follows the first character of [s] when that character is [c]. *)
Definition after_char (c : ascii) (s : string) : option string :=
  match s with
  | EmptyString => None
  | String d r => if Ascii.eqb d c then Some r else None
  end.

(** [s.replace(c, "")] for a one-character [c]. *)
Fixpoint remove_char (c : ascii) (s : string) : string :=
  match s with
  | EmptyString => EmptyString
  | String d s' =>
      if Ascii.eqb c d then remove_char c s' else String d (remove_char c s')
  end.

(** [sep.join(xs)] *)
Definition join (sep : string) (xs : list string) : string :=
  String.concat sep xs.

(** [any(p(x) for x in xs)] *)
Definition any {A : Type} (p : A -> bool) (xs : list A) : bool := existsb p xs.

(** [seq[0]] *)
Definition index0 {A : Type} (xs : list A) : result A :=
  match xs with
  | [] => Raise IndexError
  | x :: _ => Ok x
  end.

(** [d[key]] on a dictionary kept as an association list. *)
Fixpoint getitem {V : Type} (d : list (string * V)) (key : string) : result V :=
  match d with
  | [] => Raise KeyError
  | (k, v) :: d' => if String.eqb k key then Ok v else getitem d' key
  end.

(** [d.values()] *)
Definition values {V : Type} (d : list (string * V)) : list V := map snd d.

(** [d.keys()] *)
Definition keys {V : Type} (d : list (string * V)) : list string := map fst d.

End Py.

Notation "x <- m ;; k" := (Py.bind m (fun x => k))
  (at level 61, m at next level, right associativity).

(* ================================================================== *)
(** * The regular expressions of the module *)
(* ================================================================== *)

(** Each pattern of [logic.py] is compiled by hand into the scanner that
    Python's backtracking matcher amounts to on it. *)

Module Re.

Definition starts_with (p : ascii -> bool) (s : string) : bool :=
  match s with
  | EmptyString => false
  | String c _ => p c
  end.

(** Put a character in front of the first piece. *)
Definition push (c : ascii) (parts : list string) : list string :=
  match parts with
  | [] => [String c EmptyString]
  | p :: ps => String c p :: ps
  end.

(** [re.findall(r"[class]+", s)]: the maximal runs of characters of the
    class, from left to right. *)
Fixpoint findall_runs (p : ascii -> bool) (s : string) : list string :=
  match s with
  | EmptyString => []
  | String c s' =>
      if p c then
        if starts_with p s' then push c (findall_runs p s')
        else String c EmptyString :: findall_runs p s'
      else findall_runs p s'
  end.

(** [re.split(r"[class]+", s)]: the pieces between the maximal runs of
    characters of the class, empty pieces included. *)
Fixpoint split_runs (p : ascii -> bool) (s : string) : list string :=
  match s with
  | EmptyString => [EmptyString]
  | String c s' =>
      if p c then
        if starts_with p s' then split_runs p s'
        else EmptyString :: split_runs p s'
      else push c (split_runs p s')
  end.

(** How many characters [\s*\n] takes at the start of [s]: the greedy star
    gives back blanks until a line feed follows, so the match ends with the
    last line feed of the leading run of blanks; no match when that run has
    no line feed. *)
Fixpoint blanks_to_newline (s : string) : option nat :=
  match s with
  | EmptyString => None
  | String c s' =>
      if Py.isspace c then
        match blanks_to_newline s' with
        | Some n => Some (S n)
        | None => if Ascii.eqb c Py.newline then Some 1 else None
        end
      else None
  end.

(** [re.split(r"\n\s*\n", s)] with the first [skip] characters of [s] still
    part of the separator being consumed. *)
Fixpoint split_blank_from (skip : nat) (s : string) : list string :=
  match s with
  | EmptyString => [EmptyString]
  | String c s' =>
      match skip with
      | S k => split_blank_from k s'
      | O =>
          if Ascii.eqb c Py.newline then
            match blanks_to_newline s' with
            | Some n => EmptyString :: split_blank_from n s'
            | None => push c (split_blank_from 0 s')
            end
          else push c (split_blank_from 0 s')
      end
  end.

Definition split_blank_lines (s : string) : list string :=
  split_blank_from 0 s.

(** The longest prefix of digits and what follows it: [\d+] or [\d*]. *)
Fixpoint span_digits (s : string) : string * string :=
  match s with
  | EmptyString => (EmptyString, EmptyString)
  | String c s' =>
      if Py.isdigit c
      then let '(ds, rest) := span_digits s' in (String c ds, rest)
      else (EmptyString, s)
  end.

(** [-?\d+(?:\.\d+)?] matched at the start of [s].  A leading minus sign is
    kept only when a digit follows, for without it [\d+] fails both after the
    sign and, once the matcher has given the sign back, on the sign itself;
    the fraction is kept only when a digit follows the point. *)
Definition match_number (s : string) : option string :=
  let '(sign, body) :=
    match Py.after_char "-" s with
    | Some r => ("-", r)
    | None => ("", s)
    end in
  let '(ip, rest) := span_digits body in
  match ip with
  | EmptyString => None
  | _ =>
      let frac :=
        match Py.after_char "." rest with
        | Some r =>
            match span_digits r with
            | (String d fd, _) => String "."%char (String d fd)
            | _ => EmptyString
            end
        | None => EmptyString
        end in
      Some (sign ++ ip ++ frac)
  end.

(** [re.search(r"-?\d+(?:\.\d+)?", s)]: the match at the leftmost position
    that has one ([match.group(0)]). *)
Fixpoint search_number (s : string) : option string :=
  match match_number s with
  | Some m => Some m
  | None =>
      match s with
      | EmptyString => None
      | String _ s' => search_number s'
      end
  end.

End Re.

(* ================================================================== *)
(** * Python floats *)
(* ================================================================== *)

Module Float.

Definition float : Type := spec_float.

(** [floor (log2 (a / b))] for positive [a] and [b]. *)
Definition ilog2_ratio (a b : Z) : Z :=
  let d := (Z.log2 a - Z.log2 b)%Z in
  if (b * 2 ^ Z.max d 0 <=? a * 2 ^ Z.max (- d) 0)%Z then d else (d - 1)%Z.

(** The integer nearest to [num / den], ties to the even one
    ([num >= 0], [den > 0]). *)
Definition round_half_even (num den : Z) : Z :=
  let q := (num / den)%Z in
  let r := (num mod den)%Z in
  if ((den <? 2 * r) || ((den =? 2 * r) && Z.odd q))%Z%bool
  then (q + 1)%Z else q.

(** The binary64 value nearest to [a / b], ties to even, for [a >= 0] and
    [b > 0]: 53 bits of mantissa, exponents of the unit in the last place
    from -1074 to 971, overflow to infinity. *)
Definition round_ratio (neg : bool) (a b : Z) : float :=
  if (a <=? 0)%Z then S754_zero neg else
  let e := Z.max (ilog2_ratio a b - 52) (-1074) in
  let m := round_half_even (a * 2 ^ Z.max (- e) 0) (b * 2 ^ Z.max e 0) in
  let '(m, e) := if (m =? 2 ^ 53)%Z then (2 ^ 52, e + 1)%Z else (m, e) in
  match m with
  | Zpos p => if (e <=? 971)%Z then S754_finite neg p e else S754_infinity neg
  | _ => S754_zero neg
  end.

(** [float(n)] for a small integer literal of the source: exact. *)
Definition of_int (n : Z) : float :=
  match n with
  | Z0 => S754_zero false
  | Zpos p => S754_finite false p 0
  | Zneg p => S754_finite true p 0
  end.

Definition signed (s : bool) (m : positive) : Z :=
  if s then Zneg m else Zpos m.

(** Exact comparison of the values of two floats, [None] when unordered. *)
Definition compare (x y : float) : option comparison :=
  match x, y with
  | S754_nan, _ | _, S754_nan => None
  | S754_infinity s1, S754_infinity s2 =>
      Some (match s1, s2 with
            | true, false => Lt
            | false, true => Gt
            | _, _ => Eq
            end)
  | S754_infinity s, _ => Some (if s then Lt else Gt)
  | _, S754_infinity s => Some (if s then Gt else Lt)
  | S754_zero _, S754_zero _ => Some Eq
  | S754_zero _, S754_finite s _ _ => Some (if s then Gt else Lt)
  | S754_finite s _ _, S754_zero _ => Some (if s then Lt else Gt)
  | S754_finite s1 m1 e1, S754_finite s2 m2 e2 =>
      Some (Z.compare (signed s1 m1 * 2 ^ Z.max (e1 - e2) 0)
                      (signed s2 m2 * 2 ^ Z.max (e2 - e1) 0))
  end.

(** [x <= y] *)
Definition leb (x y : float) : bool :=
  match compare x y with
  | Some Lt | Some Eq => true
  | _ => false
  end.

(** [x >= y] *)
Definition geb (x y : float) : bool :=
  match compare x y with
  | Some Gt | Some Eq => true
  | _ => false
  end.

(** [a / b] on integers ([a >= 0], [b >= 0]): the quotient correctly
    rounded. *)
Definition truediv (a b : Z) : Py.result float :=
  if (b =? 0)%Z then Py.Raise Py.ZeroDivisionError else
  match round_ratio false a b with
  | S754_infinity _ => Py.Raise Py.OverflowError
  | q => Py.Ok q
  end.

(** *** Decimal numerals *)

Definition digit_value (c : ascii) : Z := Z.of_N (Py.code c - 48).

Fixpoint int_of_digits_from (acc : Z) (s : string) : Z :=
  match s with
  | EmptyString => acc
  | String c s' => int_of_digits_from (10 * acc + digit_value c) s'
  end.

Definition int_of_digits (s : string) : Z := int_of_digits_from 0 s.

(** [float(s)] on the numerals [-?digits(.digits)?], the only texts the
    module converts: the decimal value correctly rounded, infinite when too
    large.  Python reads further spellings (exponents, a leading plus sign,
    [inf], [nan], surrounding blanks); they never reach this call and are
    answered with [ValueError] here. *)
Definition of_str (s : string) : Py.result float :=
  let '(neg, body) :=
    match Py.after_char "-" s with
    | Some r => (true, r)
    | None => (false, s)
    end in
  let '(ip, rest) := Re.span_digits body in
  match ip, rest with
  | EmptyString, _ => Py.Raise Py.ValueError
  | _, EmptyString => Py.Ok (round_ratio neg (int_of_digits ip) 1)
  | _, _ =>
      match Py.after_char "." rest with
      | Some fp =>
          match Re.span_digits fp with
          | (String c fd, EmptyString) =>
              Py.Ok (round_ratio neg (int_of_digits (ip ++ String c fd))
                       (10 ^ Z.of_nat (String.length (String c fd))))
          | _ => Py.Raise Py.ValueError
          end
      | None => Py.Raise Py.ValueError
      end
  end.

(** *** Formatting *)

Definition digit_char (d : Z) : ascii := ascii_of_N (Z.to_N d + 48).

(** Decimal digits of a natural number, most significant first; [fuel]
    bounds the number of digits. *)
Fixpoint digits_of (fuel : nat) (n : Z) (acc : string) : string :=
  match fuel with
  | O => acc
  | S fuel' =>
      let acc' := String (digit_char (n mod 10)) acc in
      if (n <? 10)%Z then acc' else digits_of fuel' (n / 10) acc'
  end.

(** [str(n)] for [n >= 0]. *)
Definition str_of_int (n : Z) : string :=
  digits_of (S (Z.to_nat (Z.log2 n))) n EmptyString.

Definition sign_text (s : bool) : string := if s then "-" else "".

(** [f"{x:.1f}"]: one digit after the point, the exact binary value rounded
    to the nearest tenth, ties to even. *)
Definition format_1f (x : float) : string :=
  match x with
  | S754_nan => "nan"
  | S754_infinity s => sign_text s ++ "inf"
  | S754_zero s => sign_text s ++ "0.0"
  | S754_finite s m e =>
      let t := round_half_even (10 * Zpos m * 2 ^ Z.max e 0) (2 ^ Z.max (- e) 0) in
      sign_text s ++ str_of_int (t / 10) ++ "." ++ str_of_int (t mod 10)
  end.

End Float.


(* ================================================================== *)
(** * The static keyword tables *)
(* ================================================================== *)

Module Tables.

Definition MOAT_KEYWORDS : list (string * string) :=
  [ ("network effect", "Network effects");
    ("network effects", "Network effects");
    ("switching cost", "Switching costs");
    ("switching costs", "Switching costs");
    ("brand", "Brand strength");
    ("flywheel", "Flywheel");
    ("scale", "Scale advantage");
    ("cost advantage", "Cost advantage");
    ("distribution", "Distribution reach");
    ("regulation", "Regulatory license") ].

Definition MANAGEMENT_POSITIVE : list (string * string) :=
  [ ("founder-led", "Founder-led");
    ("founder led", "Founder-led");
    ("owner-operator", "Owner-operator");
    ("owner operator", "Owner-operator");
    ("insider ownership", "Insider ownership");
    ("insider-owned", "Insider ownership");
    ("buyback", "Buybacks");
    ("buybacks", "Buybacks");
    ("roic", "High ROIC");
    ("return on capital", "Returns on capital");
    ("capital allocator", "Capital allocation");
    ("capital allocation", "Capital allocation");
    ("skin in the game", "Skin in the game") ].

Definition MANAGEMENT_RED_FLAGS : list (string * string) :=
  [ ("restatement", "Accounting restatement");
    ("probe", "Regulatory probe");
    ("investigation", "Investigation");
    ("fraud", "Fraud mention");
    ("lawsuit", "Shareholder lawsuit");
    ("sec", "SEC scrutiny");
    ("resignation", "Leadership turnover") ].

Definition BIAS_KEYWORDS : list (string * (string * list string)) :=
  [ ("Incentives",
     ("Incentives",
      [ "bonus"; "commission"; "fees"; "subsidy"; "rebate"; "kickback";
        "option"; "equity comp"; "stock grant"; "performance pay";
        "founder-led"; "founder led"; "founder"; "buyback"; "buybacks";
        "yield"; "fcf"; "owner-operator"; "owner operator";
        "insider ownership" ]));
    ("Social-Proof",
     ("Social-Proof",
      [ "customers"; "peers"; "trend"; "hype"; "viral"; "adoption";
        "reference"; "case study"; "industry standard"; "partnership";
        "network effect"; "network effects"; "switching cost";
        "switching costs"; "integrations"; "integration"; "community" ]));
    ("Commitment/Consistency",
     ("Commitment/Consistency",
      [ "long-term contract"; "multi-year"; "switching cost";
        "switching costs"; "integrations"; "installed base"; "locked in";
        "legacy system"; "prior investment" ]));
    ("Authority",
     ("Authority",
      [ "regulator"; "regulators"; "regulation"; "mandate"; "government";
        "board approval"; "expert"; "advisor"; "consultant" ])) ].

Definition INVERSION_RULES : list (list string * string) :=
  [ ([ "network effect"; "network effects" ],
     "What breaks network effects? (regulatory fee caps, platform API changes, competitor subsidies).");
    ([ "switching cost"; "switching costs" ],
     "What erodes switching costs? (migration tooling, interoperability mandates, bundled pricing).");
    ([ "brand" ],
     "Where does the brand lose trust? (quality lapses, pricing power pushback, reputational hits).");
    ([ "cost advantage"; "scale" ],
     "Who undercuts the cost advantage? (input inflation, vertical integration, price wars).");
    ([ "regulation"; "license" ],
     "How could regulation flip? (license removal, new entrants approved, compliance burdens).") ].

End Tables.

(* ================================================================== *)
(** * The scoring engine *)
(* ================================================================== *)

Module Logic.

Import Py Tables.

(** The three statuses a verdict is given. *)
Definition Pass : string := "Pass".
Definition Fail : string := "Fail".
Definition NeedsData : string := "Needs Data".

Record FilterResult : Type := mkFilterResult {
  status : string;
  details : string;
  hits : option (list string)
}.

Record Snapshot : Type := mkSnapshot {
  filters : list (string * FilterResult);
  invert : string;
  biases : list string;
  posture : string;
  copy_text : string
}.

(** [len(xs)] as an integer. *)
Definition len {A : Type} (xs : list A) : Z := Z.of_nat (List.length xs).

(** [xs.append(x)] *)
Definition append {A : Type} (xs : list A) (x : A) : list A := (xs ++ [x])%list.

(** Truth value of a list. *)
Definition nonempty {A : Type} (xs : list A) : bool :=
  match xs with [] => false | _ :: _ => true end.

(** The class [[a-zA-Z0-9']]. *)
Definition word_char (c : ascii) : bool :=
  (islower c || isupper c || isdigit c || Ascii.eqb c "'"%char)%bool.

(** The class [[.!?]]. *)
Definition terminator (c : ascii) : bool :=
  (Ascii.eqb c "."%char || Ascii.eqb c "!"%char || Ascii.eqb c "?"%char)%bool.

Definition _tokenize_words (text : string) : list string :=
  Re.findall_runs word_char (lower text).

Definition _count_sentences (text : string) : list string :=
  let parts := Re.split_runs terminator text in
  map strip (filter (fun p => truthy (strip p)) parts).

Definition _count_paragraphs (text : string) : Z :=
  let paragraphs :=
    filter (fun p => truthy (strip p)) (Re.split_blank_lines text) in
  if nonempty paragraphs then len paragraphs
  else if truthy (strip text) then 1%Z else 0%Z.

Definition _parse_number (raw : option string) : result (option Float.float) :=
  match raw with
  | None => Ok None
  | Some raw =>
      let text := lower (strip raw) in
      if negb (truthy text) then Ok None else
      let text := remove_char "%"%char text in
      let text := remove_char "~"%char text in
      match Re.search_number text with
      | None => Ok None
      | Some m =>
          match Float.of_str m with
          | Ok v => Ok (Some v)
          | Raise ValueError => Ok None
          | Raise e => Raise e
          end
      end
  end.

(** The literal [0.2]. *)
Definition float_0_2 : Float.float :=
  S754_finite false 7205759403792794 (-55).

Definition msg_empty : string := "Add a concise thesis summary.".
Definition msg_clear : string := "Clear one-sentence hook; jargon in check.".
Definition msg_summary : string := "Add a <=30 word summary line up top.".
Definition msg_jargon : string :=
  "High jargon density—clarify plain language.".
Definition msg_segments : string :=
  "Too many disjoint segments—tighten focus.".

Definition _score_understandable (thesis : string) : result FilterResult :=
  let cleaned := strip thesis in
  if negb (truthy cleaned) then Ok (mkFilterResult Fail msg_empty None) else
  let sentences := _count_sentences cleaned in
  let words := _tokenize_words cleaned in
  first_sentence_words <-
    (if nonempty sentences
     then s0 <- index0 sentences ;; Ok (_tokenize_words s0)
     else Ok []) ;;
  let long_words := filter (fun w => (12 <? String.length w)%nat) words in
  long_word_ratio <- Float.truediv (len long_words) (Z.max (len words) 1) ;;
  let paragraphs := _count_paragraphs cleaned in
  let conditions :=
    [ ("summary", (len first_sentence_words <=? 30)%Z);
      ("jargon", Float.leb long_word_ratio float_0_2);
      ("segments", (paragraphs <=? 2)%Z) ] in
  if forallb (fun b : bool => b) (values conditions)
  then Ok (mkFilterResult Pass msg_clear None) else
  let misses : list string := [] in
  c_summary <- getitem conditions "summary" ;;
  let misses := if negb c_summary then append misses msg_summary else misses in
  c_jargon <- getitem conditions "jargon" ;;
  let misses := if negb c_jargon then append misses msg_jargon else misses in
  c_segments <- getitem conditions "segments" ;;
  let misses := if negb c_segments then append misses msg_segments else misses in
  Ok (mkFilterResult Fail (join " " misses) None).

(** The loop shared by the moat and management scorers: the labels of the
    keywords found in [text], in table order, each label once. *)
Definition collect_labels (table : list (string * string)) (text : string)
  : list string :=
  fold_left
    (fun acc '(keyword, label) =>
       if (str_in keyword text && negb (list_in label acc))%bool
       then append acc label else acc)
    table [].

Definition msg_moat : string :=
  "Spell out the moat (network effects, switching costs, brand, cost advantage).".

Definition _score_moat (thesis : string) : FilterResult :=
  let text := lower thesis in
  let hits := collect_labels MOAT_KEYWORDS text in
  if nonempty hits
  then mkFilterResult Pass (join ", " hits) (Some hits)
  else mkFilterResult Fail msg_moat None.

Definition msg_management : string :=
  "Note owner-operator traits, insider ownership, or capital allocation history.".

Definition _score_management (thesis : string) : FilterResult :=
  let text := lower thesis in
  let positives := collect_labels MANAGEMENT_POSITIVE text in
  let negatives := collect_labels MANAGEMENT_RED_FLAGS text in
  if nonempty negatives
  then mkFilterResult Fail ("Red flags: " ++ join ", " negatives) None
  else if nonempty positives
  then mkFilterResult Pass (join ", " positives) None
  else mkFilterResult Fail msg_management None.

(** [x is not None and p(x)] *)
Definition some_and {A : Type} (p : A -> bool) (x : option A) : bool :=
  match x with
  | Some a => p a
  | None => false
  end.

Definition is_some {A : Type} (x : option A) : bool :=
  match x with Some _ => true | None => false end.

(** [f"{x:.1f}"] on a value that may be [None]. *)
Definition fmt_1f (x : option Float.float) : result string :=
  match x with
  | Some v => Ok (Float.format_1f v)
  | None => Raise TypeError
  end.

Definition msg_needs_data : string :=
  "— add P/E or FCF-yield to judge MOS.".

Definition _score_margin_of_safety (pe_text fcf_yield_text : option string)
  : result FilterResult :=
  pe <- _parse_number pe_text ;;
  fcf_yield <- _parse_number fcf_yield_text ;;
  if some_and (fun v => Float.leb v (Float.of_int 15)) pe then
    s <- fmt_1f pe ;;
    Ok (mkFilterResult Pass ("P/E " ++ s ++ " within <=15 guardrail.") None)
  else if some_and (fun v => Float.geb v (Float.of_int 6)) fcf_yield then
    s <- fmt_1f fcf_yield ;;
    Ok (mkFilterResult Pass ("FCF yield " ++ s ++ "% clears >=6% bar.") None)
  else if (is_some pe || is_some fcf_yield)%bool then
    let details : list string := [] in
    details <-
      (if is_some pe
       then s <- fmt_1f pe ;; Ok (append details ("P/E " ++ s ++ " > 15"))
       else Ok details) ;;
    details <-
      (if is_some fcf_yield
       then s <- fmt_1f fcf_yield ;;
            Ok (append details ("FCF yield " ++ s ++ "% < 6%"))
       else Ok details) ;;
    Ok (mkFilterResult Fail (join "; " details) None)
  else Ok (mkFilterResult NeedsData msg_needs_data None).

Definition _rank_biases (thesis : string) : list string :=
  let text := lower thesis in
  let '(ordered_biases, triggered) :=
    fold_left
      (fun '(ordered_biases, triggered) '(_, (display, keywords)) =>
         (append ordered_biases display,
          if any (fun keyword => str_in keyword text) keywords
          then append triggered display else triggered))
      BIAS_KEYWORDS (([] : list string), ([] : list string)) in
  let final :=
    fold_left
      (fun final bias =>
         if (list_in bias triggered && negb (list_in bias final))%bool
         then append final bias else final)
      ordered_biases [] in
  let final :=
    fold_left
      (fun final bias =>
         if negb (list_in bias final) then append final bias else final)
      ordered_biases final in
  firstn 3 final.

Definition msg_invert_generic : string :=
  "What would have to be true for this to fail? Pressure-test customer churn, pricing power, and management behavior.".

(** The loop of [_invert_question]: the prompt of the first rule that
    fires, if any. *)
Fixpoint first_inversion (text : string) (moat_hits : list string)
  (rules : list (list string * string)) : option string :=
  match rules with
  | [] => None
  | (keywords, prompt) :: rest =>
      if any (fun k => str_in k text) keywords then Some prompt
      else if (nonempty moat_hits &&
               any (fun hit => any (fun k => str_in k hit) keywords) moat_hits)%bool
      then Some prompt
      else first_inversion text moat_hits rest
  end.

Definition _invert_question (thesis : string) (moat_result : FilterResult)
  : string :=
  let text := lower thesis in
  let moat_hits :=
    match hits moat_result with
    | Some (h :: hs) => map lower (h :: hs)
    | _ => []
    end in
  match first_inversion text moat_hits INVERSION_RULES with
  | Some prompt => prompt
  | None => msg_invert_generic
  end.

Definition count_status (s : string) (fs : list (string * FilterResult)) : Z :=
  len (filter (fun f => String.eqb (status f) s) (values fs)).

Definition _posture (fs : list (string * FilterResult)) : string :=
  let passes := count_status Pass fs in
  let fails := count_status Fail fs in
  let needs := count_status NeedsData fs in
  if (2 <=? fails)%Z then "No"
  else if ((fails =? 0) && (needs =? 0) && (3 <=? passes))%Z%bool then "Go"
  else "Wait".

Definition _build_copy (fs : list (string * FilterResult)) (invert : string)
  (biases : list string) (posture : string) : string :=
  let lines := ["Four-Filters Snapshot"] in
  let lines :=
    fold_left
      (fun lines '(name, result) =>
         let detail :=
           if truthy (details result) then " — " ++ details result else "" in
         append lines (name ++ ": " ++ status result ++ detail))
      fs lines in
  let lines := append lines ("Invert: " ++ invert) in
  let lines := append lines ("Bias Risks: " ++ join ", " biases) in
  let lines := append lines ("Posture: " ++ posture) in
  join (String newline EmptyString) lines.

Definition four_filters (thesis : string)
  (pe_text fcf_yield_text : option string) : result Snapshot :=
  understandable <- _score_understandable thesis ;;
  let moat := _score_moat thesis in
  let management := _score_management thesis in
  margin <- _score_margin_of_safety pe_text fcf_yield_text ;;
  let filters :=
    [ ("Understandable", understandable);
      ("Moat", moat);
      ("Management", management);
      ("Margin of Safety", margin) ] in
  moat_result <- getitem filters "Moat" ;;
  let invert := _invert_question thesis moat_result in
  let biases := _rank_biases thesis in
  let posture := _posture filters in
  let copy_text := _build_copy filters invert biases posture in
  Ok (mkSnapshot filters invert biases posture copy_text).

End Logic.

(* ================================================================== *)
(** * The specification's vocabulary *)
(* ================================================================== *)

(** Definitions that follow the words of the specification; the theorems
    below compare them with the functions of [Logic]. *)

Module Spec.

Import Py Tables Logic.

(** The keys of the [filters] dictionary, in insertion order. *)
Definition filter_names : list string :=
  ["Understandable"; "Moat"; "Management"; "Margin of Safety"].

(** The filter names as the specification's data model spells them. *)
Definition filter_names_as_specified : list string :=
  ["Understandable"; "Moat"; "Management"; "MarginOfSafety"].

(** The four bias categories in declaration order. *)
Definition bias_names : list string :=
  ["Incentives"; "Social-Proof"; "Commitment/Consistency"; "Authority"].

(** The dictionary that [four_filters] builds from four verdicts. *)
Definition filters_of (u m g s : FilterResult) : list (string * FilterResult) :=
  combine filter_names [u; m; g; s].

(** The three statuses as an enumeration. *)
Inductive Status : Type := StPass | StFail | StNeedsData.

Definition status_text (s : Status) : string :=
  match s with
  | StPass => Pass
  | StFail => Fail
  | StNeedsData => NeedsData
  end.

Definition status_eqb (a b : Status) : bool :=
  match a, b with
  | StPass, StPass | StFail, StFail | StNeedsData, StNeedsData => true
  | _, _ => false
  end.

(** How many of the statuses [ss] are [s]. *)
Definition how_many (s : Status) (ss : list Status) : Z :=
  Z.of_nat (List.length (filter (status_eqb s) ss)).

(** The posture rule in the specification's words. *)
Definition posture_rule (ss : list Status) : string :=
  if (2 <=? how_many StFail ss)%Z then "No"
  else if ((how_many StFail ss =? 0) && (how_many StNeedsData ss =? 0)
           && (3 <=? how_many StPass ss))%Z%bool then "Go"
  else "Wait".

(** Keep the first occurrence of every string. *)
Fixpoint first_occurrences (xs : list string) : list string :=
  match xs with
  | [] => []
  | x :: rest =>
      x :: filter (fun y => negb (String.eqb y x)) (first_occurrences rest)
  end.

(** One step of the appending loop of the scorers. *)
Definition append_new (acc : list string) (label : string) : list string :=
  if list_in label acc then acc else append acc label.


(** The labels of the keywords of [table] that occur in [text], in table
    order, each label once. *)
Definition labels_found (table : list (string * string)) (text : string)
  : list string :=
  first_occurrences
    (map snd (filter (fun kv => str_in (fst kv) text) table)).

(** A bias category is triggered when one of its keywords occurs in the
    text. *)
Definition triggered (text : string) (category : string) : bool :=
  existsb
    (fun entry =>
       (String.eqb (fst (snd entry)) category
        && existsb (fun keyword => str_in keyword text) (snd (snd entry)))%bool)
    BIAS_KEYWORDS.

(** Triggered categories first, then the others, both in declaration order,
    cut to three. *)
Definition bias_ranking (text : string) : list string :=
  firstn 3 (filter (triggered text) bias_names
            ++ filter (fun c => negb (triggered text c)) bias_names)%list.

(** The labels an inversion rule looks at: those of the moat verdict. *)
Definition matched_labels (moat_result : FilterResult) : list string :=
  match hits moat_result with
  | Some labels => labels
  | None => []
  end.


(** The same test as a boolean, on the lowercased labels. *)
Definition rule_firesb (text : string) (moat_hits : list string)
  (rule : list string * string) : bool :=
  (existsb (fun k => str_in k text) (fst rule)
   || (nonempty moat_hits
       && existsb (fun hit => existsb (fun k => str_in k hit) (fst rule))
                  moat_hits))%bool.

(** No character of the text satisfies [p]. *)
Fixpoint none_of (p : ascii -> bool) (s : string) : bool :=
  match s with
  | EmptyString => true
  | String c s' => (negb (p c) && none_of p s')%bool
  end.

(** Every character of the text satisfies [p]. *)
Fixpoint all_of (p : ascii -> bool) (s : string) : bool :=
  match s with
  | EmptyString => true
  | String c s' => (p c && all_of p s')%bool
  end.

(** The remediation messages of the conditions that fail, in the order
    summary, jargon, segments. *)
Definition remediation (summary jargon segments : bool) : list string :=
  map snd
    (filter (fun cm => negb (fst cm))
       [ (summary, msg_summary); (jargon, msg_jargon);
         (segments, msg_segments) ]).

(** The words of the first sentence of a trimmed text. *)
Definition first_sentence_words (cleaned : string) : list string :=
  match _count_sentences cleaned with
  | [] => []
  | s0 :: _ => _tokenize_words s0
  end.

(** The words longer than twelve characters. *)
Definition long_words (cleaned : string) : list string :=
  filter (fun w => (12 <? String.length w)%nat) (_tokenize_words cleaned).

(** The rationale of a failing margin of safety: one entry per value
    supplied. *)
Definition rationale (pe fcf_yield : option Float.float) : list string :=
  let on_pe :=
    match pe with
    | Some v => ["P/E " ++ Float.format_1f v ++ " > 15"]
    | None => []
    end in
  let on_yield :=
    match fcf_yield with
    | Some v => ["FCF yield " ++ Float.format_1f v ++ "% < 6%"]
    | None => []
    end in
  (on_pe ++ on_yield)%list.

(** A float that is neither infinite nor a NaN. *)
Definition finite_or_zero (x : Float.float) : Prop :=
  match x with
  | S754_zero _ | S754_finite _ _ _ => True
  | _ => False
  end.

(** A line feed as a string. *)
Definition nl : string := String newline EmptyString.


(** A character that is not a blank. *)
Definition visible (c : ascii) : bool := negb (isspace c).

(** The strings of a list are pairwise distinct. *)
Fixpoint distinct (xs : list string) : bool :=
  match xs with
  | [] => true
  | x :: rest => (negb (list_in x rest) && distinct rest)%bool
  end.

(** Three entries, pairwise distinct, all of them bias categories. *)
Definition three_of_the_biases (xs : list string) : bool :=
  (Nat.eqb (List.length xs) 3 && distinct xs
   && forallb (fun x => list_in x bias_names) xs)%bool.

End Spec.

(* ================================================================== *)
(** * The form handler of [app.py] *)
(* ================================================================== *)

(** The two routes up to their call of [render_template]: what is embedded
    is the keyword arguments handed to the template, the rendering being
    Flask's.  A submitted form is an association list from field names to
    values. *)

Module App.

Import Py Logic.

(** The arguments of [render_template("index.html", ...)]. *)
Record Context : Type := mkContext {
  result : option Snapshot;
  thesis : string;
  pe_input : string;
  fcf_input : string;
  error : option string;
  char_count : Z
}.

(** [request.form.get(key, default)] *)
Definition form_get (form : list (string * string)) (key default : string)
  : string :=
  match getitem form key with
  | Ok v => v
  | Raise _ => default
  end.

(** [s or None] *)
Definition or_none (s : string) : option string :=
  if truthy s then Some s else None.

Definition msg_no_thesis : string := "Add a brief 6–10 line thesis to score.".
Definition msg_too_long : string := "Trim input to 1,200 characters.".

(** [index()] *)
Definition index : Context :=
  mkContext None "" "" "" None 0.

(** [snap()] on the submitted form. *)
Definition snap (form : list (string * string)) : Py.result Context :=
  let thesis := strip (form_get form "thesis" "") in
  let pe_input := strip (form_get form "pe" "") in
  let fcf_input := strip (form_get form "fcf_yield" "") in
  let error : option string := None in
  let error :=
    if negb (truthy thesis) then Some msg_no_thesis
    else if (1200 <? Z.of_nat (String.length thesis))%Z then Some msg_too_long
    else error in
  let result : option Snapshot := None in
  result <-
    (match error with
     | None =>
         r <- four_filters thesis (or_none pe_input) (or_none fcf_input) ;;
         Ok (Some r)
     | Some _ => Ok result
     end) ;;
  Ok (mkContext result thesis pe_input fcf_input error
        (Z.of_nat (String.length thesis))).

End App.

(* ================================================================== *)
(** * Vocabulary of the further properties *)
(* ================================================================== *)

Module Derived.

Import Py Tables Logic Spec.


(** A letter of either case. *)
Definition letter (c : ascii) : bool := (islower c || isupper c)%bool.



(** The value of a float is the integer [n]. *)
Definition is_integer (v : Float.float) (n : Z) : Prop :=
  Float.compare v (Float.of_int n) = Some Eq.

(** One line of the report for a filter. *)
Definition report_line (entry : string * FilterResult) : string :=
  fst entry ++ ": " ++ status (snd entry)
  ++ (if truthy (details (snd entry)) then " — " ++ details (snd entry)
      else "").

(** The lines of the report, from top to bottom. *)
Definition report_lines (fs : list (string * FilterResult)) (invert : string)
  (biases : list string) (posture : string) : list string :=
  let tail :=
    [ "Invert: " ++ invert;
      "Bias Risks: " ++ join ", " biases;
      "Posture: " ++ posture ] in
  "Four-Filters Snapshot" :: (map report_line fs ++ tail)%list.


(** The status of the filter called [name] in a snapshot, when it is a
    key. *)
Definition status_of (snapshot : Snapshot) (name : string) : option string :=
  match getitem (filters snapshot) name with
  | Ok verdict => Some (status verdict)
  | Raise _ => None
  end.

(** The moat verdict of a thesis without any moat keyword. *)
Definition moat_fail : FilterResult := mkFilterResult Fail msg_moat None.

(** The text is a numeral made of digits only. *)
Definition digits_only (s : string) : bool :=
  (truthy s && all_of isdigit s)%bool.


(** A digit or a minus sign. *)
Definition numeral_char (c : ascii) : bool :=
  (isdigit c || Ascii.eqb c "-"%char)%bool.

(** A numeric input lowercased and rid of its percent and tilde signs. *)
Definition number_text (raw : string) : string :=
  remove_char "~" (remove_char "%" (lower raw)).

(** What [_parse_number] makes of the result of the search. *)
Definition parse_found (found : option string)
  : Py.result (option Float.float) :=
  match found with
  | None => Ok None
  | Some m =>
      match Float.of_str m with
      | Ok v => Ok (Some v)
      | Raise ValueError => Ok None
      | Raise e => Raise e
      end
  end.

(** The snapshot of an analysis that did not raise. *)
Definition the_snapshot (r : Py.result Snapshot) : Snapshot :=
  match r with
  | Ok snapshot => snapshot
  | Raise _ => mkSnapshot [] "" [] "" ""
  end.

(** The sign bit of a float. *)
Definition sign_bit (v : Float.float) : bool :=
  match v with
  | S754_zero s | S754_infinity s | S754_finite s _ _ => s
  | S754_nan => false
  end.

End Derived.

(* ================================================================== *)
(** * Properties *)
(* ================================================================== *)

Import Py Tables Logic Spec.

(** ** The primitives on known values *)

(** Values that CPython prints for the same expressions. *)

Example float_of_str_values :
  Float.of_str "0.1" = Ok (S754_finite false 7205759403792794 (-56))
  /\ Float.of_str "0.2" = Ok float_0_2
  /\ Float.of_str "7" = Ok (S754_finite false 7881299347898368 (-50))
  /\ Float.of_str "007.50" = Ok (S754_finite false 8444249301319680 (-50))
  /\ Float.of_str "3.14159" = Ok (S754_finite false 7074231776675438 (-51))
  /\ Float.of_str "15.0000000000000000001"
     = Ok (S754_finite false 8444249301319680 (-49))
  /\ Float.of_str "-0" = Ok (S754_zero true)
  /\ Float.of_str "-.5" = Raise ValueError.
Proof. repeat split; vm_compute; reflexivity. Qed.

(** The rounded quotient is the one of the standard library's division. *)
Example round_ratio_as_SFdiv :
  forallb
    (fun ab =>
       SFeqb (Float.round_ratio false (fst ab) (snd ab))
             (SFdiv 53 1024 (Float.of_int (fst ab)) (Float.of_int (snd ab))))
    [ (1, 3); (2, 3); (1, 5); (1, 10); (123456789, 1000); (10 ^ 30, 7);
      (1, 10 ^ 320); (1, 10 ^ 330); (17 * 10 ^ 308, 1); (10 ^ 309, 1);
      (9007199254740993, 1); (9007199254740995, 1); (5, 10 ^ 324);
      (49, 10 ^ 325); (3, 10 ^ 324); (2 ^ 1024 - 2 ^ 970, 1);
      (2 ^ 1024 - 2 ^ 970 - 1, 1) ]%Z
  = true.
Proof. vm_compute. reflexivity. Qed.

Example format_1f_values :
  map (fun s => match Float.of_str s with
                | Ok v => Float.format_1f v
                | Raise _ => "error"
                end)
      [ "0.25"; "0.35"; "0.05"; "0.15"; "9.96"; "-0"; "1234567.891";
        "123456789012345678901234567890.55" ]
  = [ "0.2"; "0.3"; "0.1"; "0.1"; "10.0"; "-0.0"; "1234567.9";
      "123456789012345677877719597056.0" ]
  /\ Float.format_1f (S754_infinity false) = "inf".
Proof. split; vm_compute; reflexivity. Qed.

Example search_number_values :
  map Re.search_number
      [ "-"; "a-5.x"; "--5.25.3"; "x.5"; "5."; "abc"; "-.5"; "1-2" ]
  = [ None; Some "-5"; Some "-5.25"; Some "5"; Some "5"; None; Some "5";
      Some "1" ].
Proof. reflexivity. Qed.

Example split_blank_lines_values :
  Re.split_blank_lines ("a" ++ nl ++ nl ++ "b") = ["a"; "b"]
  /\ Re.split_blank_lines ("a" ++ nl ++ " " ++ nl ++ nl ++ " b" ++ nl ++ "c")
     = ["a"; " b" ++ nl ++ "c"]
  /\ Re.split_blank_lines (nl ++ nl ++ "x") = [""; "x"]
  /\ Re.split_blank_lines ("x" ++ nl ++ nl) = ["x"; ""]
  /\ Re.split_blank_lines ("a" ++ nl ++ "b") = ["a" ++ nl ++ "b"]
  /\ Re.split_blank_lines ("a" ++ nl ++ " " ++ nl ++ "b" ++ nl)
     = ["a"; "b" ++ nl]
  /\ Re.split_blank_lines (nl ++ nl ++ nl) = [""; ""]
  /\ Re.split_blank_lines ("a " ++ nl ++ nl ++ nl ++ " b" ++ nl ++ nl ++ "c")
     = ["a "; " b"; "c"].
Proof. repeat split. Qed.

Example split_and_findall_values :
  Re.split_runs terminator "Hi there. How are you?! Fine..."
  = ["Hi there"; " How are you"; " Fine"; ""]
  /\ Re.split_runs terminator "..a" = [""; "a"]
  /\ Re.split_runs terminator "" = [""]
  /\ Re.split_runs terminator "?" = [""; ""]
  /\ _tokenize_words "It's 9am, O'Neil-style!"
     = ["it's"; "9am"; "o'neil"; "style"]
  /\ _tokenize_words "__ a_b" = ["a"; "b"]
  /\ _count_sentences "Hi there. How are you?! Fine..."
     = ["Hi there"; "How are you"; "Fine"].
Proof. repeat split. Qed.

Example four_filters_example :
  four_filters
    "We love network effects and a founder-led team. Brand is strong! What else?"
    (Some "10") (Some "2")
  = Ok (mkSnapshot
          [ ("Understandable", mkFilterResult Pass msg_clear None);
            ("Moat",
             mkFilterResult Pass "Network effects, Brand strength"
               (Some ["Network effects"; "Brand strength"]));
            ("Management", mkFilterResult Pass "Founder-led" None);
            ("Margin of Safety",
             mkFilterResult Pass "P/E 10.0 within <=15 guardrail." None) ]
          "What breaks network effects? (regulatory fee caps, platform API changes, competitor subsidies)."
          ["Incentives"; "Social-Proof"; "Commitment/Consistency"]
          "Go"
          ("Four-Filters Snapshot" ++ nl
           ++ "Understandable: Pass — Clear one-sentence hook; jargon in check." ++ nl
           ++ "Moat: Pass — Network effects, Brand strength" ++ nl
           ++ "Management: Pass — Founder-led" ++ nl
           ++ "Margin of Safety: Pass — P/E 10.0 within <=15 guardrail." ++ nl
           ++ "Invert: What breaks network effects? (regulatory fee caps, platform API changes, competitor subsidies)." ++ nl
           ++ "Bias Risks: Incentives, Social-Proof, Commitment/Consistency" ++ nl
           ++ "Posture: Go")).
Proof. vm_compute. reflexivity. Qed.

(** ** Posture *)

(** C3. The posture depends on the four statuses alone: whatever the details
    and matched keywords of the four verdicts, it is "No" when at least two
    statuses are Fail, "Go" when none is Fail, none is NeedsData and at least
    three are Pass, and "Wait" otherwise; four Pass give "Go", and one Fail
    with three Pass gives "Wait" wherever the Fail stands. *)
Theorem posture_is_function_of_statuses :
  forall (s1 s2 s3 s4 : Status) (d1 d2 d3 d4 : string)
         (h1 h2 h3 h4 : option (list string)),
    let verdict s d h := mkFilterResult (status_text s) d h in
    let posture_of a b c e :=
      _posture (filters_of (verdict a d1 h1) (verdict b d2 h2)
                           (verdict c d3 h3) (verdict e d4 h4)) in
    posture_of s1 s2 s3 s4 = posture_rule [s1; s2; s3; s4]
    /\ posture_of StPass StPass StPass StPass = "Go"
    /\ posture_of StFail StPass StPass StPass = "Wait"
    /\ posture_of StPass StFail StPass StPass = "Wait"
    /\ posture_of StPass StPass StFail StPass = "Wait"
    /\ posture_of StPass StPass StPass StFail = "Wait"
    /\ (posture_of s1 s2 s3 s4 = "Go" <->
        s1 = StPass /\ s2 = StPass /\ s3 = StPass /\ s4 = StPass)
    /\ (posture_of s1 s2 s3 s4 = "No" <->
        (2 <= how_many StFail [s1; s2; s3; s4])%Z).
Proof.
  intros s1 s2 s3 s4 d1 d2 d3 d4 h1 h2 h3 h4 verdict posture_of.
  subst verdict posture_of; cbv beta.
  split; [destruct s1, s2, s3, s4; reflexivity|].
  do 5 (split; [reflexivity|]).
  split.
  - destruct s1, s2, s3, s4; vm_compute; split; intros H;
      try discriminate H; try (repeat split; reflexivity);
      decompose [and] H; discriminate.
  - destruct s1, s2, s3, s4; vm_compute; split; intros H;
      try discriminate H; try reflexivity;
      try (intro C; discriminate C);
      exfalso; apply H; reflexivity.
Qed.

(** ** Lists of labels *)

Lemma list_in_In : forall x xs, list_in x xs = true <-> In x xs.
Proof.
  intros x xs; unfold list_in; rewrite existsb_exists; split.
  - intros [y [Hy He]]; apply String.eqb_eq in He; subst; assumption.
  - intros H; exists x; split; [assumption | apply String.eqb_refl].
Qed.

Lemma list_in_app : forall x xs ys,
  list_in x (xs ++ ys)%list = (list_in x xs || list_in x ys)%bool.
Proof. intros; unfold list_in; apply existsb_app. Qed.

Lemma filter_filter_comm : forall (A : Type) (p q : A -> bool) (l : list A),
  filter p (filter q l) = filter q (filter p l).
Proof.
  intros A p q l; induction l as [|a l IH]; simpl; [reflexivity|].
  destruct (p a) eqn:Hp, (q a) eqn:Hq; simpl; rewrite ?Hp, ?Hq, IH; reflexivity.
Qed.

Lemma filter_absorb : forall (A : Type) (p q : A -> bool) (l : list A),
  (forall a, q a = true -> p a = true) ->
  filter q (filter p l) = filter q l.
Proof.
  intros A p q l H; induction l as [|a l IH]; simpl; [reflexivity|].
  destruct (p a) eqn:Hp; simpl.
  - rewrite IH; reflexivity.
  - destruct (q a) eqn:Hq; [|assumption].
    apply H in Hq; congruence.
Qed.

(** Keeping first occurrences commutes with any selection by value. *)
Lemma first_occurrences_filter : forall (q : string -> bool) (l : list string),
  first_occurrences (filter q l) = filter q (first_occurrences l).
Proof.
  intros q l; induction l as [|y l IH]; simpl; [reflexivity|].
  destruct (q y) eqn:Hq; simpl.
  - rewrite IH, filter_filter_comm; reflexivity.
  - rewrite IH.
    symmetry; apply filter_absorb.
    intros a Ha; destruct (String.eqb a y) eqn:E; [|reflexivity].
    apply String.eqb_eq in E; subst; congruence.
Qed.

Lemma first_occurrences_In : forall x l, In x (first_occurrences l) <-> In x l.
Proof.
  intros x l; induction l as [|y l IH]; simpl; [tauto|].
  rewrite filter_In, IH; split.
  - intros [H | [H _]]; auto.
  - intros [H | H]; [auto|].
    destruct (String.eqb x y) eqn:E.
    + apply String.eqb_eq in E; auto.
    + right; split; [assumption | reflexivity].
Qed.



Lemma collect_fold_matches : forall table text acc,
  fold_left
    (fun acc '(keyword, label) =>
       if (str_in keyword text && negb (list_in label acc))%bool
       then append acc label else acc)
    table acc
  = fold_left append_new
      (map snd (filter (fun kv => str_in (fst kv) text) table)) acc.
Proof.
  intros table text; induction table as [|[k l] table IH]; intros acc; simpl;
    [reflexivity|].
  destruct (str_in k text) eqn:Hk; simpl; rewrite IH; [|reflexivity].
  unfold append_new; destruct (list_in l acc); reflexivity.
Qed.

Lemma fold_append_new : forall labels acc,
  fold_left append_new labels acc
  = (acc ++ first_occurrences
              (filter (fun l => negb (list_in l acc)) labels))%list.
Proof.
  induction labels as [|x labels IH]; intros acc; simpl.
  - rewrite app_nil_r; reflexivity.
  - unfold append_new at 2; destruct (list_in x acc) eqn:Hx; simpl.
    + apply IH.
    + rewrite IH; unfold append; rewrite <- app_assoc; simpl.
      do 2 f_equal.
      rewrite <- first_occurrences_filter, filter_filter_comm.
      f_equal.
      transitivity
        (filter (fun l => (negb (list_in l acc) && negb (String.eqb l x))%bool)
                labels).
      * apply filter_ext; intros a.
        rewrite list_in_app; simpl; unfold list_in at 2; simpl.
        rewrite orb_false_r, negb_orb; reflexivity.
      * clear; induction labels as [|y labels IH]; simpl; [reflexivity|].
        destruct (String.eqb y x), (list_in y acc) eqn:Hy; simpl;
          rewrite ?Hy; simpl; rewrite IH; reflexivity.
Qed.

(** The loop of the moat and management scorers computes the labels found,
    first occurrences kept. *)
Lemma collect_labels_spec : forall table text,
  collect_labels table text = labels_found table text.
Proof.
  intros table text; unfold collect_labels, labels_found.
  rewrite collect_fold_matches, fold_append_new; simpl.
  f_equal; clear; induction (map snd _) as [|y l IH]; simpl; congruence.
Qed.


(** A label is found exactly when one of its keywords occurs in the text. *)
Lemma labels_found_In : forall table text label,
  In label (labels_found table text) <->
  exists keyword, In (keyword, label) table /\ str_in keyword text = true.
Proof.
  intros table text label; unfold labels_found.
  rewrite first_occurrences_In, in_map_iff; split.
  - intros [[k l] [E H]]; simpl in E; subst l.
    apply filter_In in H; destruct H as [H1 H2]; exists k; auto.
  - intros [k [H1 H2]]; exists (k, label); split; [reflexivity|].
    apply filter_In; auto.
Qed.

(** ** Moat and management filters *)



Example moat_dedupe_example :
  _score_moat "Network effect today, network effects tomorrow"
  = mkFilterResult Pass "Network effects" (Some ["Network effects"]).
Proof. reflexivity. Qed.



Example management_examples :
  _score_management "Founder-led, but a lawsuit and an SEC probe are pending"
    = mkFilterResult Fail
        "Red flags: Regulatory probe, Shareholder lawsuit, SEC scrutiny" None
  /\ _score_management "Owner operator with buybacks and more buyback"
    = mkFilterResult Pass "Owner-operator, Buybacks" None
  /\ _score_management "Nothing to see" = mkFilterResult Fail msg_management None.
Proof. repeat split. Qed.

(** ** Bias ranker *)

(** Forget the keyword list of the category displayed as [d]. *)
Ltac generalize_keywords d k :=
  match goal with
  | |- context [(d, (d, ?kws))] => generalize kws; intros k
  end.

Lemma rank_biases_cases : forall thesis,
  _rank_biases thesis = bias_ranking (lower thesis)
  /\ three_of_the_biases (_rank_biases thesis) = true.
Proof.
  intros thesis.
  unfold _rank_biases, bias_ranking, triggered, any, BIAS_KEYWORDS.
  generalize (lower thesis); intros text.
  generalize_keywords "Incentives" k1.
  generalize_keywords "Social-Proof" k2.
  generalize_keywords "Commitment/Consistency" k3.
  generalize_keywords "Authority" k4.
  set (t := existsb (fun keyword => str_in keyword text)); clearbody t.
  cbn [fold_left filter existsb bias_names fst snd].
  destruct (t k1), (t k2), (t k3), (t k4); split; vm_compute; reflexivity.
Qed.

Lemma distinct_NoDup : forall xs, distinct xs = true -> NoDup xs.
Proof.
  induction xs as [|x xs IH]; simpl; intros H; constructor.
  - apply andb_true_iff in H; destruct H as [H _].
    apply negb_true_iff in H; intros Hin.
    apply list_in_In in Hin; congruence.
  - apply IH; apply andb_true_iff in H; tauto.
Qed.

Lemma three_of_the_biases_spec : forall xs,
  three_of_the_biases xs = true ->
  List.length xs = 3%nat /\ NoDup xs /\ incl xs bias_names.
Proof.
  intros xs H; unfold three_of_the_biases in H.
  apply andb_true_iff in H; destruct H as [H H3].
  apply andb_true_iff in H; destruct H as [H1 H2].
  split; [apply Nat.eqb_eq, H1|].
  split; [apply distinct_NoDup, H2|].
  intros x Hx; rewrite forallb_forall in H3.
  apply list_in_In, H3, Hx.
Qed.


Example rank_biases_examples :
  _rank_biases "" = ["Incentives"; "Social-Proof"; "Commitment/Consistency"]
  /\ _rank_biases "The regulator likes it"
     = ["Authority"; "Incentives"; "Social-Proof"]
  /\ _rank_biases "Multi-year deals, expert board"
     = ["Commitment/Consistency"; "Authority"; "Incentives"]
  /\ _rank_biases "Switching costs, FCF yield, regulation"
     = ["Incentives"; "Social-Proof"; "Commitment/Consistency"].
Proof. repeat split. Qed.

(** ** Inversion advisor *)


Lemma first_inversion_find : forall text moat_hits rules,
  first_inversion text moat_hits rules
  = option_map snd (find (rule_firesb text moat_hits) rules).
Proof.
  intros text moat_hits rules; induction rules as [|[kws prompt] rules IH];
    simpl; [reflexivity|].
  unfold rule_firesb at 1, any; simpl.
  destruct (existsb (fun k => str_in k text) kws); simpl; [reflexivity|].
  destruct (nonempty moat_hits && _)%bool; simpl; [reflexivity | exact IH].
Qed.


Lemma find_nowhere : forall (A : Type) (p : A -> bool) l,
  (forall y, In y l -> p y = false) -> find p l = None.
Proof.
  intros A p l H; induction l as [|y l IH]; simpl; [reflexivity|].
  rewrite (H y (or_introl eq_refl)); apply IH.
  intros z Hz; apply H; right; assumption.
Qed.

Lemma invert_question_find : forall thesis moat_result,
  _invert_question thesis moat_result =
  match find (rule_firesb (lower thesis)
                (map lower (matched_labels moat_result))) INVERSION_RULES with
  | Some rule => snd rule
  | None => msg_invert_generic
  end.
Proof.
  intros thesis moat_result; unfold _invert_question, matched_labels.
  rewrite first_inversion_find.
  replace (match hits moat_result with
           | Some (h :: hs) => map lower (h :: hs)
           | _ => []
           end)
    with (map lower match hits moat_result with
                    | Some labels => labels
                    | None => []
                    end)
    by (destruct (hits moat_result) as [[|h hs]|]; reflexivity).
  destruct (find _ INVERSION_RULES); reflexivity.
Qed.




Example invert_question_examples :
  _invert_question "Nothing matches here" (_score_moat "Nothing matches here")
    = msg_invert_generic
  /\ _invert_question "cheap"
       (mkFilterResult Pass "Regulatory license" (Some ["Regulatory license"]))
     = "How could regulation flip? (license removal, new entrants approved, compliance burdens)."
  /\ _invert_question "Scale and BRAND and switching costs"
       (_score_moat "Scale and BRAND and switching costs")
     = "What erodes switching costs? (migration tooling, interoperability mandates, bundled pricing)."
  /\ _invert_question "regulation" (mkFilterResult Pass "" (Some ["BRAND"]))
     = "Where does the brand lose trust? (quality lapses, pricing power pushback, reputational hits).".
Proof. repeat split. Qed.

(** ** Characters *)

Ltac all_chars c := destruct c as [[] [] [] [] [] [] [] []]; vm_compute.

Lemma isdigit_lower_char : forall c, isdigit (lower_char c) = isdigit c.
Proof. intros c; all_chars c; reflexivity. Qed.


Lemma isdigit_not_space : forall c, isdigit c = true -> isspace c = false.
Proof. intros c; all_chars c; intros H; congruence. Qed.

Lemma isdigit_not_symbol : forall c,
  isdigit c = true ->
  Ascii.eqb c "-" = false /\ Ascii.eqb c "." = false /\
  Ascii.eqb "%" c = false /\ Ascii.eqb "~" c = false.
Proof. intros c; all_chars c; intros H; repeat split; congruence. Qed.

Lemma isspace_not_word_char : forall c, isspace c = true -> word_char c = false.
Proof. intros c; all_chars c; intros H; congruence. Qed.

(** ** Numerals *)

Lemma span_digits_fst : forall s, all_of isdigit (fst (Re.span_digits s)) = true.
Proof.
  induction s as [|c s IH]; simpl; [reflexivity|].
  destruct (isdigit c) eqn:Hc; [|reflexivity].
  destruct (Re.span_digits s) as [ds rest]; simpl in *.
  rewrite Hc, IH; reflexivity.
Qed.

Lemma span_digits_all : forall s,
  all_of isdigit s = true -> Re.span_digits s = (s, EmptyString).
Proof.
  induction s as [|c s IH]; simpl; [reflexivity|].
  intros H; apply andb_true_iff in H; destruct H as [Hc Hs].
  rewrite Hc, (IH Hs); reflexivity.
Qed.

Lemma span_digits_app : forall ip frac,
  all_of isdigit ip = true -> Re.starts_with isdigit frac = false ->
  Re.span_digits (ip ++ frac) = (ip, frac).
Proof.
  induction ip as [|c ip IH]; simpl; intros frac Hd Hf.
  - destruct frac as [|d frac]; simpl in *; [reflexivity|].
    rewrite Hf; reflexivity.
  - apply andb_true_iff in Hd; destruct Hd as [Hc Hd].
    rewrite Hc, (IH frac Hd Hf); reflexivity.
Qed.

(** Every text that the number pattern matches is a numeral that [float]
    reads: the [ValueError] handler of [_parse_number] is never entered. *)
Lemma of_str_match_number : forall s m,
  Re.match_number s = Some m -> exists v, Float.of_str m = Ok v.
Proof.
  intros s m; unfold Re.match_number.
  set (sb := match after_char "-" s with
             | Some r => ("-", r)
             | None => ("", s)
             end).
  destruct sb as [sign body] eqn:Esb.
  destruct (Re.span_digits body) as [ip rest] eqn:Espan.
  destruct ip as [|c ip]; [discriminate|].
  set (frac := match after_char "." rest with
               | Some r =>
                   match Re.span_digits r with
                   | (String d fd, _) => String "."%char (String d fd)
                   | _ => EmptyString
                   end
               | None => EmptyString
               end).
  intros H; injection H as <-.
  assert (Hip : all_of isdigit (String c ip) = true).
  { pose proof (span_digits_fst body) as Hf; rewrite Espan in Hf; exact Hf. }
  assert (Hc : isdigit c = true).
  { simpl in Hip; apply andb_true_iff in Hip; tauto. }
  assert (Hfrac : frac = EmptyString \/
                  exists d fd, frac = String "."%char (String d fd)
                               /\ all_of isdigit (String d fd) = true).
  { subst frac; destruct (after_char "." rest) as [r|]; [|left; reflexivity].
    pose proof (span_digits_fst r) as Hf.
    destruct (Re.span_digits r) as [[|d fd] rest']; [left; reflexivity|].
    right; exists d, fd; split; [reflexivity | exact Hf]. }
  assert (Hbody : Float.of_str (sign ++ String c ip ++ frac)
                  = (let neg := negb (String.eqb sign "") in
                     match frac with
                     | EmptyString =>
                         Ok (Float.round_ratio neg
                               (Float.int_of_digits (String c ip)) 1)
                     | String _ fp =>
                         Ok (Float.round_ratio neg
                               (Float.int_of_digits (String c ip ++ fp))
                               (10 ^ Z.of_nat (String.length fp)))
                     end)).
  { assert (Hsign : sign = "-" \/ sign = "").
    { subst sb; destruct (after_char "-" s); injection Esb as <- <-; auto. }
    assert (Hstart : Re.starts_with isdigit frac = false).
    { destruct Hfrac as [-> | [d [fd [-> _]]]]; reflexivity. }
    unfold Float.of_str.
    assert (Ea : match after_char "-" (sign ++ String c ip ++ frac) with
                 | Some r => (true, r)
                 | None => (false, sign ++ String c ip ++ frac)
                 end = (negb (String.eqb sign ""), String c ip ++ frac)).
    { destruct Hsign as [-> | ->]; simpl; [reflexivity|].
      destruct (isdigit_not_symbol c Hc) as [-> _]; reflexivity. }
    rewrite Ea, (span_digits_app _ _ Hip Hstart).
    destruct Hfrac as [-> | [d [fd [-> Hfd]]]]; [reflexivity|].
    cbn [after_char]; rewrite Ascii.eqb_refl, (span_digits_all _ Hfd).
    reflexivity. }
  change (exists v, Float.of_str (sign ++ String c ip ++ frac) = Ok v).
  rewrite Hbody; destruct frac; eexists; reflexivity.
Qed.

Lemma span_digits_nonempty : forall s,
  fst (Re.span_digits s) <> EmptyString <-> Re.starts_with isdigit s = true.
Proof.
  intros [|c s]; simpl; [split; [congruence | discriminate]|].
  destruct (isdigit c); simpl; [|split; [congruence | discriminate]].
  destruct (Re.span_digits s); simpl; split; [reflexivity | discriminate].
Qed.

Lemma starts_with_none_of : forall p s,
  Re.starts_with p s = true -> none_of p s = false.
Proof. intros p [|c s]; simpl; [discriminate | intros ->; reflexivity]. Qed.

Lemma match_number_digit : forall s m,
  Re.match_number s = Some m -> none_of isdigit s = false.
Proof.
  intros s m; unfold Re.match_number.
  destruct s as [|c s]; simpl; [discriminate|].
  destruct (Ascii.eqb c "-") eqn:Ec.
  - destruct (Re.span_digits s) as [ip rest] eqn:E.
    destruct ip; [discriminate|]; intros _.
    assert (H : Re.starts_with isdigit s = true).
    { apply span_digits_nonempty; rewrite E; discriminate. }
    rewrite (starts_with_none_of _ _ H); apply andb_false_r.
  - cbn [Re.span_digits]; destruct (isdigit c); [reflexivity|].
    simpl; discriminate.
Qed.

Lemma match_number_at_digit : forall s,
  Re.starts_with isdigit s = true -> Re.match_number s <> None.
Proof.
  intros [|c s]; simpl; [discriminate|]; intros Hc.
  unfold Re.match_number; cbn [after_char].
  destruct (isdigit_not_symbol c Hc) as [-> _].
  cbn [Re.span_digits]; rewrite Hc.
  destruct (Re.span_digits s); discriminate.
Qed.

(** The search finds a number exactly when the text holds a digit. *)
Lemma search_number_none : forall s,
  Re.search_number s = None <-> none_of isdigit s = true.
Proof.
  induction s as [|c s IH].
  - split; reflexivity.
  - cbn [Re.search_number].
    destruct (Re.match_number (String c s)) as [m|] eqn:Em.
    + rewrite (match_number_digit _ _ Em); split; discriminate.
    + cbn [none_of].
      rewrite IH, andb_true_iff, negb_true_iff; split; [|tauto].
      intros H; split; [|exact H].
      destruct (isdigit c) eqn:Hc; [|reflexivity].
      exfalso; apply (match_number_at_digit (String c s)); assumption.
Qed.

Lemma search_number_some : forall s m,
  Re.search_number s = Some m -> exists s', Re.match_number s' = Some m.
Proof.
  induction s as [|c s IH]; intros m; cbn [Re.search_number].
  - vm_compute; discriminate.
  - destruct (Re.match_number (String c s)) as [m'|] eqn:Em.
    + intros H; injection H as <-; exists (String c s); exact Em.
    + apply IH.
Qed.

(** ** Trimming, lowercasing and the characters of a text *)

Lemma none_of_lstrip : forall p s,
  (forall c, isspace c = true -> p c = false) ->
  none_of p (lstrip s) = none_of p s.
Proof.
  intros p s H; induction s as [|c s IH]; simpl; [reflexivity|].
  destruct (isspace c) eqn:Hc; [|reflexivity].
  rewrite IH, (H c Hc); reflexivity.
Qed.

Lemma none_of_rstrip : forall p s,
  (forall c, isspace c = true -> p c = false) ->
  none_of p (rstrip s) = none_of p s.
Proof.
  intros p s H; induction s as [|c s IH]; simpl; [reflexivity|].
  rewrite <- IH.
  destruct (rstrip s) as [|d r]; [|reflexivity].
  destruct (isspace c) eqn:Hc; [|reflexivity].
  rewrite (H c Hc); reflexivity.
Qed.

Lemma none_of_strip : forall p s,
  (forall c, isspace c = true -> p c = false) ->
  none_of p (strip s) = none_of p s.
Proof.
  intros p s H; unfold strip.
  rewrite none_of_rstrip, none_of_lstrip by assumption; reflexivity.
Qed.

Lemma none_of_lower : forall p s,
  (forall c, p (lower_char c) = p c) -> none_of p (lower s) = none_of p s.
Proof.
  intros p s H; induction s as [|c s IH]; simpl; [reflexivity|].
  rewrite H, IH; reflexivity.
Qed.

Lemma none_of_remove_char : forall p c s,
  p c = false -> none_of p (remove_char c s) = none_of p s.
Proof.
  intros p c s H; induction s as [|d s IH]; simpl; [reflexivity|].
  destruct (Ascii.eqb c d) eqn:E; simpl; rewrite IH; [|reflexivity].
  apply Ascii.eqb_eq in E; subst d; rewrite H; reflexivity.
Qed.

Lemma space_not_digit : forall c, isspace c = true -> isdigit c = false.
Proof.
  intros c H; destruct (isdigit c) eqn:E; [|reflexivity].
  rewrite (isdigit_not_space c E) in H; discriminate H.
Qed.

(** ** Numeric inputs *)

(** What [_parse_number] looks at: the input trimmed, lowercased and rid of
    its percent and tilde signs. *)
Lemma parse_number_text_digits : forall raw,
  none_of isdigit (remove_char "~" (remove_char "%" (lower (strip raw))))
  = none_of isdigit raw.
Proof.
  intros raw.
  rewrite !none_of_remove_char by reflexivity.
  rewrite none_of_lower by apply isdigit_lower_char.
  apply none_of_strip, space_not_digit.
Qed.

(** [_parse_number] never raises, and it yields no value exactly when the
    input is absent or holds no digit. *)
Lemma parse_number_total : forall raw,
  exists v, _parse_number raw = Ok v
            /\ (v = None <->
                match raw with
                | None => True
                | Some text => none_of isdigit text = true
                end).
Proof.
  intros [raw|]; [|exists None; split; [reflexivity | tauto]].
  unfold _parse_number.
  destruct (truthy (lower (strip raw))) eqn:Ht; simpl.
  - pose proof (parse_number_text_digits raw) as Hd.
    destruct (Re.search_number _) as [m|] eqn:Es.
    + destruct (search_number_some _ _ Es) as [s' Hs'].
      destruct (of_str_match_number _ _ Hs') as [v ->].
      exists (Some v); split; [reflexivity|].
      assert (Hn : Re.search_number
                     (remove_char "~" (remove_char "%" (lower (strip raw))))
                   <> None) by congruence.
      rewrite search_number_none, Hd in Hn.
      split; [discriminate | contradiction].
    + exists None; split; [reflexivity|].
      apply search_number_none in Es; rewrite Hd in Es; tauto.
  - exists None; split; [reflexivity|].
    destruct (lower (strip raw)) eqn:E; [|discriminate Ht].
    rewrite <- (none_of_strip isdigit raw space_not_digit).
    rewrite <- (none_of_lower isdigit (strip raw) isdigit_lower_char), E.
    split; reflexivity.
Qed.

(** ** Margin of safety *)

(** C2. The margin-of-safety filter parses both inputs without raising and
    applies its rules in order, the first that matches deciding: a P/E that
    parsed to a number at most 15 gives Pass whatever the yield; otherwise a
    yield that parsed to a number at least 6 gives Pass; otherwise, when at
    least one value parsed, Fail with the rationales of the supplied values
    joined by "; "; otherwise NeedsData.  P/E "10" with yield "2" is Pass,
    although the yield "2" alone fails. *)
Theorem margin_of_safety_first_match_wins :
  forall pe_text fcf_yield_text : option string,
    (exists pe fcf_yield,
        _parse_number pe_text = Ok pe
        /\ _parse_number fcf_yield_text = Ok fcf_yield)
    /\ (forall pe fcf_yield,
          _parse_number pe_text = Ok pe ->
          _parse_number fcf_yield_text = Ok fcf_yield ->
          let score := _score_margin_of_safety pe_text fcf_yield_text in
          let pe_within :=
            some_and (fun v => Float.leb v (Float.of_int 15)) pe in
          let yield_clears :=
            some_and (fun v => Float.geb v (Float.of_int 6)) fcf_yield in
          (forall v,
              pe = Some v -> Float.leb v (Float.of_int 15) = true ->
              score = Ok (mkFilterResult Pass
                            ("P/E " ++ Float.format_1f v
                                    ++ " within <=15 guardrail.") None))
          /\ (forall v,
                pe_within = false ->
                fcf_yield = Some v -> Float.geb v (Float.of_int 6) = true ->
                score = Ok (mkFilterResult Pass
                              ("FCF yield " ++ Float.format_1f v
                                            ++ "% clears >=6% bar.") None))
          /\ (pe_within = false -> yield_clears = false ->
              pe <> None \/ fcf_yield <> None ->
              score = Ok (mkFilterResult Fail
                            (join "; " (rationale pe fcf_yield)) None))
          /\ (pe = None -> fcf_yield = None ->
              score = Ok (mkFilterResult NeedsData msg_needs_data None)))
    /\ _score_margin_of_safety (Some "10") (Some "2")
       = Ok (mkFilterResult Pass "P/E 10.0 within <=15 guardrail." None)
    /\ _score_margin_of_safety None (Some "2")
       = Ok (mkFilterResult Fail "FCF yield 2.0% < 6%" None).
Proof.
  intros pe_text fcf_yield_text; split; [|split; [|split; reflexivity]].
  - destruct (parse_number_total pe_text) as [pe [Hpe _]].
    destruct (parse_number_total fcf_yield_text) as [fy [Hfy _]].
    exists pe, fy; split; assumption.
  - intros pe fy Hpe Hfy score pe_within yield_clears.
    subst score pe_within yield_clears.
    unfold _score_margin_of_safety; rewrite Hpe, Hfy; cbn [bind].
    repeat split.
    + intros v -> Hv; cbn [some_and]; rewrite Hv; reflexivity.
    + intros v Hw -> Hv; rewrite Hw; cbn [some_and]; rewrite Hv; reflexivity.
    + intros Hw Hc Hs; rewrite Hw, Hc.
      destruct pe as [p|], fy as [y|]; try reflexivity.
      destruct Hs as [Hs | Hs]; congruence.
    + intros -> ->; reflexivity.
Qed.

Lemma margin_of_safety_first_match_wins_witness :
  _score_margin_of_safety (Some "14.5") (Some "3%")
  = Ok (mkFilterResult Pass
          ("P/E " ++ Float.format_1f (S754_finite false 8162774324609024 (-49))
                  ++ " within <=15 guardrail.") None).
Proof.
  apply (proj1 (proj1 (proj2 (margin_of_safety_first_match_wins
                                (Some "14.5") (Some "3%")))
                  (Some (S754_finite false 8162774324609024 (-49)))
                  (Some (S754_finite false 6755399441055744 (-51)))
                  eq_refl eq_refl)
           (S754_finite false 8162774324609024 (-49)) eq_refl eq_refl).
Defined.

Example margin_of_safety_examples :
  _score_margin_of_safety (Some "15") None
    = Ok (mkFilterResult Pass "P/E 15.0 within <=15 guardrail." None)
  /\ _score_margin_of_safety (Some "15.01") (Some "6")
    = Ok (mkFilterResult Pass "FCF yield 6.0% clears >=6% bar." None)
  /\ _score_margin_of_safety (Some "22x") (Some "~4.25%")
    = Ok (mkFilterResult Fail "P/E 22.0 > 15; FCF yield 4.2% < 6%" None)
  /\ _score_margin_of_safety (Some "n/a") (Some "5.99")
    = Ok (mkFilterResult Fail "FCF yield 6.0% < 6%" None)
  /\ _score_margin_of_safety (Some "n/a") (Some "  ")
    = Ok (mkFilterResult NeedsData msg_needs_data None)
  /\ _score_margin_of_safety (Some "-3") None
    = Ok (mkFilterResult Pass "P/E -3.0 within <=15 guardrail." None).
Proof. repeat split. Qed.

(** ** Floats: a ratio of at most one *)

Local Open Scope Z_scope.

(** For [0 < a <= b] the quotient [a / b] lies in [[2^-k, 2^(1-k))] for the
    [k >= 0] that [ilog2_ratio] finds. *)
Lemma ilog2_ratio_at_most_one : forall a b,
  0 < a <= b ->
  exists k, 0 <= k /\ Float.ilog2_ratio a b = - k
            /\ b <= a * 2 ^ k < 2 * b.
Proof.
  intros a b [Ha Hab].
  assert (Hb : 0 < b) by lia.
  pose proof (Z.log2_spec a Ha) as [Ha1 Ha2].
  pose proof (Z.log2_spec b Hb) as [Hb1 Hb2].
  pose proof (Z.log2_le_mono a b Hab) as Hl.
  pose proof (Z.log2_nonneg a) as Hla.
  unfold Float.ilog2_ratio.
  set (la := Z.log2 a) in *; set (lb := Z.log2 b) in *.
  replace (Z.max (la - lb) 0) with 0 by lia.
  replace (Z.max (- (la - lb)) 0) with (lb - la) by lia.
  rewrite Z.pow_0_r, Z.mul_1_r.
  assert (Hp : 0 < 2 ^ (lb - la)) by (apply Z.pow_pos_nonneg; lia).
  assert (E : 2 ^ lb = 2 ^ la * 2 ^ (lb - la)).
  { rewrite <- Z.pow_add_r by lia; f_equal; lia. }
  rewrite !Z.pow_succ_r in * by lia.
  rewrite E in Hb1, Hb2.
  set (A := 2 ^ la) in *; set (P := 2 ^ (lb - la)) in *.
  destruct (b <=? a * P) eqn:T.
  - apply Z.leb_le in T; exists (lb - la); repeat split; try lia.
    fold P; nia.
  - apply Z.leb_gt in T; exists (lb - la + 1); repeat split; try lia;
      rewrite Z.pow_add_r, Z.pow_1_r by lia; fold P; nia.
Qed.

Lemma round_ratio_at_most_one : forall neg a b,
  0 <= a <= b -> 0 < b -> finite_or_zero (Float.round_ratio neg a b).
Proof.
  intros neg a b [Ha Hab] Hb; unfold Float.round_ratio.
  destruct (a <=? 0) eqn:Ea; [exact I|].
  apply Z.leb_gt in Ea.
  destruct (ilog2_ratio_at_most_one a b (conj Ea Hab)) as [k [Hk [-> _]]].
  set (e := Z.max (- k - 52) (-1074)).
  assert (He : e <= -52) by (subst e; lia).
  set (m := Float.round_half_even _ _).
  destruct (m =? 2 ^ 53).
  - change (2 ^ 52) with 4503599627370496.
    replace (e + 1 <=? 971) with true by (symmetry; apply Z.leb_le; lia).
    exact I.
  - destruct m; [exact I | | exact I].
    replace (e <=? 971) with true by (symmetry; apply Z.leb_le; lia).
    exact I.
Qed.

(** The long-word ratio never raises. *)
Lemma truediv_at_most_one : forall a b,
  0 <= a <= b -> 0 < b ->
  exists q, Float.truediv a b = Ok q /\ q = Float.round_ratio false a b.
Proof.
  intros a b Hab Hb; unfold Float.truediv.
  replace (b =? 0) with false by (symmetry; apply Z.eqb_neq; lia).
  pose proof (round_ratio_at_most_one false a b Hab Hb) as H.
  destruct (Float.round_ratio false a b); simpl in H; try contradiction;
    eexists; split; reflexivity.
Qed.




Local Close Scope Z_scope.

(** ** Understandable filter *)

Lemma long_words_at_most_words : forall cleaned,
  (0 <= len (long_words cleaned) <= Z.max (len (_tokenize_words cleaned)) 1)%Z.
Proof.
  intros cleaned; unfold long_words, len.
  pose proof (filter_length_le (fun w => (12 <? String.length w)%nat)
                (_tokenize_words cleaned)).
  lia.
Qed.

(** The guarded [sentences[0]] never raises. *)
Lemma first_sentence_guarded : forall cleaned,
  (if nonempty (_count_sentences cleaned)
   then s0 <- index0 (_count_sentences cleaned) ;; Ok (_tokenize_words s0)
   else Ok []) = Ok (first_sentence_words cleaned).
Proof.
  intros cleaned; unfold first_sentence_words.
  destruct (_count_sentences cleaned); reflexivity.
Qed.

(** The verdict of the Understandable filter on a text whose trimmed form
    is not empty, given the long-word ratio. *)
Lemma score_understandable_nonempty : forall thesis ratio,
  strip thesis <> EmptyString ->
  Float.truediv (len (long_words (strip thesis)))
                (Z.max (len (_tokenize_words (strip thesis))) 1) = Ok ratio ->
  let summary := (len (first_sentence_words (strip thesis)) <=? 30)%Z in
  let jargon := Float.leb ratio float_0_2 in
  let segments := (_count_paragraphs (strip thesis) <=? 2)%Z in
  _score_understandable thesis =
    Ok (if (summary && jargon && segments)%bool
        then mkFilterResult Pass msg_clear None
        else mkFilterResult Fail
               (join " " (remediation summary jargon segments)) None).
Proof.
  intros thesis ratio Hne Hr summary jargon segments.
  unfold _score_understandable.
  destruct (strip thesis) as [|c cleaned] eqn:Ec; [congruence|].
  cbn [truthy negb].
  rewrite first_sentence_guarded; cbn [bind].
  unfold long_words in Hr; rewrite Hr; cbn [bind].
  fold summary; fold jargon; fold segments.
  destruct summary, jargon, segments; reflexivity.
Qed.



(** ** Texts without words *)



Lemma none_of_push : forall q c parts,
  q c = false -> Forall (fun part => none_of q part = true) parts ->
  Forall (fun part => none_of q part = true) (Re.push c parts).
Proof.
  intros q c parts Hc H; destruct H as [|part parts Hp Hr]; simpl.
  - constructor; [simpl; rewrite Hc; reflexivity | constructor].
  - constructor; [simpl; rewrite Hc, Hp; reflexivity | exact Hr].
Qed.


Lemma none_of_lstrip_sub : forall q s,
  none_of q s = true -> none_of q (lstrip s) = true.
Proof.
  intros q s; induction s as [|c s IH]; simpl; [reflexivity|].
  intros H; destruct (isspace c); [|exact H].
  apply andb_true_iff in H; apply IH; tauto.
Qed.

Lemma none_of_rstrip_sub : forall q s,
  none_of q s = true -> none_of q (rstrip s) = true.
Proof.
  intros q s; induction s as [|c s IH]; simpl; [reflexivity|].
  intros H; apply andb_true_iff in H; destruct H as [Hc Hs].
  specialize (IH Hs).
  destruct (rstrip s) as [|d r].
  - destruct (isspace c); simpl; [reflexivity | rewrite Hc; reflexivity].
  - change (none_of q (String c (String d r)) = true).
    cbn [none_of]; cbn [none_of] in IH; rewrite Hc, IH; reflexivity.
Qed.

Lemma none_of_strip_sub : forall q s,
  none_of q s = true -> none_of q (strip s) = true.
Proof.
  intros q s H; unfold strip.
  apply none_of_rstrip_sub, none_of_lstrip_sub, H.
Qed.



(** Trimming leaves nothing exactly when the text is all blanks. *)
Lemma lstrip_empty : forall s,
  lstrip s = EmptyString <-> none_of visible s = true.
Proof.
  induction s as [|c s IH]; simpl; [tauto|].
  unfold visible at 1; destruct (isspace c); simpl; [exact IH|].
  split; discriminate.
Qed.








(** ** The whole analysis *)

Lemma score_understandable_total : forall thesis,
  exists verdict, _score_understandable thesis = Ok verdict.
Proof.
  intros thesis.
  destruct (strip thesis) as [|c cleaned] eqn:E.
  - exists (mkFilterResult Fail msg_empty None).
    unfold _score_understandable; rewrite E; reflexivity.
  - assert (Hne : strip thesis <> EmptyString) by (rewrite E; discriminate).
    destruct (truediv_at_most_one _ _
                (long_words_at_most_words (strip thesis)))
      as [ratio [Hr _]]; [lia|].
    rewrite (score_understandable_nonempty thesis ratio Hne Hr).
    eexists; reflexivity.
Qed.

Lemma score_margin_total : forall pe_text fcf_yield_text,
  exists verdict,
    _score_margin_of_safety pe_text fcf_yield_text = Ok verdict
    /\ (_parse_number pe_text = Ok None ->
        _parse_number fcf_yield_text = Ok None ->
        verdict = mkFilterResult NeedsData msg_needs_data None).
Proof.
  intros pe_text fcf_yield_text.
  destruct (parse_number_total pe_text) as [pe [Hpe _]].
  destruct (parse_number_total fcf_yield_text) as [fy [Hfy _]].
  unfold _score_margin_of_safety; rewrite Hpe, Hfy; cbn [bind].
  destruct pe as [p|], fy as [y|]; cbn [some_and is_some orb];
    try destruct (Float.leb p (Float.of_int 15));
    try destruct (Float.geb y (Float.of_int 6));
    eexists; (split; [reflexivity | intros H1 H2; congruence]).
Qed.

Lemma four_filters_total : forall thesis pe_text fcf_yield_text,
  exists understandable margin,
    _score_understandable thesis = Ok understandable
    /\ _score_margin_of_safety pe_text fcf_yield_text = Ok margin
    /\ four_filters thesis pe_text fcf_yield_text
       = Ok (let fs := filters_of understandable (_score_moat thesis)
                         (_score_management thesis) margin in
             let invert := _invert_question thesis (_score_moat thesis) in
             let biases := _rank_biases thesis in
             let posture := _posture fs in
             mkSnapshot fs invert biases posture
               (_build_copy fs invert biases posture)).
Proof.
  intros thesis pe_text fcf_yield_text.
  destruct (score_understandable_total thesis) as [u Hu].
  destruct (score_margin_total pe_text fcf_yield_text) as [m [Hm _]].
  exists u, m; split; [exact Hu|]; split; [exact Hm|].
  unfold four_filters; rewrite Hu, Hm; reflexivity.
Qed.



(** C1, as amended.  For every thesis and every pair of optional numeric
    inputs [four_filters] returns a snapshot whose [filters] dictionary has
    exactly the four keys "Understandable", "Moat", "Management" and
    "Margin of Safety", in that order, and whose [biases] list has exactly
    three entries, pairwise distinct, each one of the four bias category
    names. *)
Theorem snapshot_has_four_filters_and_three_biases :
  forall (thesis : string) (pe_text fcf_yield_text : option string),
    exists snapshot,
      four_filters thesis pe_text fcf_yield_text = Ok snapshot
      /\ keys (filters snapshot) = filter_names
      /\ NoDup (keys (filters snapshot))
      /\ (forall name,
            In name filter_names <->
            exists verdict, getitem (filters snapshot) name = Ok verdict)
      /\ List.length (biases snapshot) = 3%nat
      /\ NoDup (biases snapshot)
      /\ incl (biases snapshot) bias_names.
Proof.
  intros thesis pe_text fcf_yield_text.
  destruct (four_filters_total thesis pe_text fcf_yield_text)
    as (u & m & _ & _ & Hf).
  eexists; split; [exact Hf|]; cbn [filters biases].
  split; [reflexivity|].
  split; [apply distinct_NoDup; reflexivity|].
  split.
  - intros name; unfold filters_of, filter_names; cbn [combine getitem In].
    destruct (String.eqb_spec "Understandable" name) as [<-|N1];
      [split; [eexists; reflexivity | tauto]|].
    destruct (String.eqb_spec "Moat" name) as [<-|N2];
      [split; [eexists; reflexivity | tauto]|].
    destruct (String.eqb_spec "Management" name) as [<-|N3];
      [split; [eexists; reflexivity | tauto]|].
    destruct (String.eqb_spec "Margin of Safety" name) as [<-|N4];
      [split; [eexists; reflexivity | tauto]|].
    split; [tauto | intros [v Hv]; discriminate Hv].
  - apply three_of_the_biases_spec, rank_biases_cases.
Qed.

(** C1 as stated fails on the name of the fourth key: the dictionary has no
    key "MarginOfSafety". *)
Lemma snapshot_keys_counterexample :
  exists snapshot,
    four_filters "A brand." None None = Ok snapshot
    /\ keys (filters snapshot) <> filter_names_as_specified
    /\ ~ In "MarginOfSafety" (keys (filters snapshot))
    /\ getitem (filters snapshot) "MarginOfSafety" = Raise KeyError.
Proof.
  eexists; split; [reflexivity|].
  split; [discriminate|].
  split; [|reflexivity].
  cbn; intros H; repeat (destruct H as [H | H]; [discriminate H|]).
  exact H.
Qed.

(* ================================================================== *)
(** * Further properties *)
(* ================================================================== *)

Import Derived.

(** ** Strings *)

Lemma lower_char_idempotent : forall c, lower_char (lower_char c) = lower_char c.
Proof. intros c; all_chars c; reflexivity. Qed.

Lemma isspace_lower_char : forall c, isspace (lower_char c) = isspace c.
Proof. intros c; all_chars c; reflexivity. Qed.

Lemma lower_idempotent : forall s, lower (lower s) = lower s.
Proof.
  induction s as [|c s IH]; simpl; [reflexivity|].
  rewrite lower_char_idempotent, IH; reflexivity.
Qed.

Lemma lower_app : forall a b, lower (a ++ b) = lower a ++ lower b.
Proof.
  induction a as [|c a IH]; intros b; simpl; [reflexivity|].
  rewrite IH; reflexivity.
Qed.

Lemma prefix_app : forall k t u, prefix k t = true -> prefix k (t ++ u) = true.
Proof.
  intros k t; revert k; induction t as [|d t IH]; intros k u.
  - destruct k; [destruct u; reflexivity | discriminate].
  - destruct k as [|c k]; [reflexivity|]; simpl.
    destruct (ascii_dec c d); [apply IH | discriminate].
Qed.

Lemma prefix_refl : forall k, prefix k k = true.
Proof.
  induction k as [|c k IH]; simpl; [reflexivity|].
  destruct (ascii_dec c c); [exact IH | congruence].
Qed.

Lemma str_in_app_r : forall k t u, str_in k t = true -> str_in k (t ++ u) = true.
Proof.
  intros k t u; induction t as [|d t IH]; cbn [str_in String.append]; intros H.
  - rewrite orb_false_r in H.
    destruct k; [|discriminate H].
    destruct u; reflexivity.
  - apply orb_true_iff in H; destruct H as [H | H].
    + apply orb_true_iff; left.
      apply (prefix_app k (String d t) u H).
    + rewrite (IH H); apply orb_true_r.
Qed.

Lemma str_in_app_l : forall k t u, str_in k t = true -> str_in k (u ++ t) = true.
Proof.
  intros k t u H; induction u as [|d u IH]; cbn [str_in String.append]; [exact H|].
  rewrite IH; apply orb_true_r.
Qed.

(** A text occurs in whatever is written around it. *)
Lemma str_in_middle : forall k pre post, str_in k (pre ++ k ++ post) = true.
Proof.
  intros k pre post; apply str_in_app_l, str_in_app_r.
  destruct k; cbn [str_in]; rewrite prefix_refl; reflexivity.
Qed.

Lemma str_in_embedded : forall k t pre post,
  str_in k t = true -> str_in k (pre ++ t ++ post) = true.
Proof. intros; apply str_in_app_l, str_in_app_r; assumption. Qed.

Lemma rstrip_cons : forall c s,
  isspace c = false -> rstrip (String c s) = String c (rstrip s).
Proof.
  intros c s H; simpl; rewrite H; destruct (rstrip s); reflexivity.
Qed.

Lemma rstrip_unfold : forall c s,
  rstrip (String c s) =
  match rstrip s with
  | EmptyString => if isspace c then EmptyString else String c EmptyString
  | r => String c r
  end.
Proof. reflexivity. Qed.

Lemma rstrip_idempotent : forall s, rstrip (rstrip s) = rstrip s.
Proof.
  induction s as [|c s IH]; [reflexivity|].
  rewrite rstrip_unfold; destruct (rstrip s) as [|d r] eqn:E.
  - destruct (isspace c) eqn:Hc; [reflexivity|].
    simpl; rewrite Hc; reflexivity.
  - rewrite rstrip_unfold, IH; reflexivity.
Qed.

Lemma lstrip_head : forall s,
  lstrip s = EmptyString \/
  exists c t, lstrip s = String c t /\ isspace c = false.
Proof.
  induction s as [|c s IH]; simpl; [left; reflexivity|].
  destruct (isspace c) eqn:Hc; [exact IH|].
  right; exists c, s; auto.
Qed.

Lemma lstrip_fixed : forall c t,
  isspace c = false -> lstrip (String c t) = String c t.
Proof. intros c t H; simpl; rewrite H; reflexivity. Qed.

(** Trimming twice is trimming once. *)
Lemma strip_idempotent : forall s, strip (strip s) = strip s.
Proof.
  intros s; unfold strip.
  destruct (lstrip_head s) as [-> | (c & t & -> & Hc)]; [reflexivity|].
  rewrite (rstrip_cons c t Hc), (lstrip_fixed c _ Hc).
  rewrite <- (rstrip_cons c t Hc); apply rstrip_idempotent.
Qed.

Lemma lstrip_lower : forall s, lstrip (lower s) = lower (lstrip s).
Proof.
  induction s as [|c s IH]; simpl; [reflexivity|].
  rewrite isspace_lower_char; destruct (isspace c); [exact IH | reflexivity].
Qed.

Lemma rstrip_lower : forall s, rstrip (lower s) = lower (rstrip s).
Proof.
  induction s as [|c s IH]; simpl; [reflexivity|].
  rewrite IH, isspace_lower_char.
  destruct (rstrip s); simpl; [destruct (isspace c)|]; reflexivity.
Qed.

Lemma strip_lower : forall s, strip (lower s) = lower (strip s).
Proof. intros s; unfold strip; rewrite lstrip_lower, rstrip_lower; reflexivity. Qed.

Lemma all_of_none_of : forall p s,
  all_of (fun c => negb (p c)) s = none_of p s.
Proof. induction s as [|c s IH]; simpl; [|rewrite IH]; reflexivity. Qed.

Lemma strip_without_blanks : forall s, none_of isspace s = true -> strip s = s.
Proof.
  intros s H; unfold strip.
  assert (E : lstrip s = s).
  { destruct s as [|c s]; [reflexivity|].
    simpl in H; apply andb_true_iff in H; destruct H as [Hc _].
    apply negb_true_iff in Hc; simpl; rewrite Hc; reflexivity. }
  rewrite E; clear E.
  induction s as [|c s IH]; [reflexivity|].
  simpl in H; apply andb_true_iff in H; destruct H as [Hc Hs].
  apply negb_true_iff in Hc.
  rewrite (rstrip_cons c s Hc), (IH Hs); reflexivity.
Qed.

(** ** Tokenizer and segmenter *)







Lemma split_runs_no_separator : forall p s,
  Forall (fun part => none_of p part = true) (Re.split_runs p s).
Proof.
  intros p s; induction s as [|c s IH]; simpl.
  - constructor; [reflexivity | constructor].
  - destruct (p c) eqn:Hp.
    + destruct (Re.starts_with p s); [exact IH|].
      constructor; [reflexivity | exact IH].
    + apply none_of_push; assumption.
Qed.


(** X2. Every sentence returned is non-empty, trimmed, and free of the
    terminators ".", "!" and "?". *)
Theorem count_sentences_sentences :
  forall text : string,
    Forall (fun s => s <> EmptyString /\ strip s = s
                     /\ none_of terminator s = true)
           (_count_sentences text).
Proof.
  intros text; unfold _count_sentences.
  pose proof (split_runs_no_separator terminator text) as H.
  induction H as [|part parts Hp Hr IH]; simpl; [constructor|].
  destruct (truthy (strip part)) eqn:Ht; simpl; [|exact IH].
  constructor; [|exact IH].
  split; [destruct (strip part); [discriminate Ht | discriminate]|].
  split; [apply strip_idempotent | apply none_of_strip_sub, Hp].
Qed.









(** ** Numeric inputs *)

Lemma numeral_char_plain : forall c,
  numeral_char c = true ->
  isspace c = false /\ lower_char c = c
  /\ Ascii.eqb "%" c = false /\ Ascii.eqb "~" c = false.
Proof. intros c; all_chars c; intros H; repeat split; congruence. Qed.

Lemma numeral_text_untouched : forall s,
  all_of numeral_char s = true ->
  remove_char "~" (remove_char "%" (lower (strip s))) = s.
Proof.
  intros s H.
  assert (Hs : none_of isspace s = true).
  { induction s as [|c s IH]; simpl in *; [reflexivity|].
    apply andb_true_iff in H; destruct H as [Hc Hr].
    destruct (numeral_char_plain c Hc) as [-> _]; simpl; apply IH, Hr. }
  rewrite (strip_without_blanks s Hs).
  induction s as [|c s IH]; [reflexivity|].
  cbn [all_of] in H; apply andb_true_iff in H; destruct H as [Hc Hr].
  cbn [none_of] in Hs; apply andb_true_iff in Hs; destruct Hs as [_ Hs].
  destruct (numeral_char_plain c Hc) as (_ & E1 & E2 & E3).
  cbn [lower remove_char]; rewrite E1; cbn [remove_char]; rewrite E2.
  cbn [remove_char]; rewrite E3, (IH Hr Hs); reflexivity.
Qed.

Lemma append_empty_r : forall s : string, s ++ "" = s.
Proof. induction s as [|c s IH]; simpl; [|rewrite IH]; reflexivity. Qed.

Lemma all_of_weaken : forall (p q : ascii -> bool) s,
  (forall c, p c = true -> q c = true) ->
  all_of p s = true -> all_of q s = true.
Proof.
  intros p q s H; induction s as [|c s IH]; simpl; [reflexivity|].
  intros Hs; apply andb_true_iff in Hs; destruct Hs as [Hc Hs].
  rewrite (H c Hc), (IH Hs); reflexivity.
Qed.

(** A plain numeral, with or without a minus sign, parses to its value. *)
Lemma parse_number_plain : forall (neg : bool) ds,
  digits_only ds = true ->
  _parse_number (Some ((if neg then "-" else "") ++ ds))
  = Ok (Some (Float.round_ratio neg (Float.int_of_digits ds) 1)).
Proof.
  intros neg ds H; unfold digits_only in H.
  apply andb_true_iff in H; destruct H as [Hne Hd].
  destruct ds as [|c ds]; [discriminate Hne|].
  assert (Hc : isdigit c = true) by (simpl in Hd; apply andb_true_iff in Hd; tauto).
  set (text := (if neg then "-" else "") ++ String c ds).
  assert (Hall : all_of numeral_char text = true).
  { assert (all_of numeral_char (String c ds) = true).
    { apply (all_of_weaken isdigit); [|exact Hd].
      intros d Hd'; unfold numeral_char; rewrite Hd'; reflexivity. }
    subst text; destruct neg; [|exact H].
    cbn [String.append all_of]; cbn [all_of] in H; rewrite H; reflexivity. }
  unfold _parse_number.
  assert (Ht : truthy (lower (strip text)) = true).
  { destruct (lower (strip text)) eqn:E; [|reflexivity].
    pose proof (numeral_text_untouched text Hall) as U.
    rewrite E in U; simpl in U; subst text.
    destruct neg; discriminate U. }
  rewrite Ht; cbn [negb]; rewrite (numeral_text_untouched text Hall).
  assert (Hm : Re.match_number text = Some text).
  { unfold Re.match_number; subst text; destruct neg.
    - cbn [String.append after_char]; rewrite Ascii.eqb_refl.
      rewrite (span_digits_all _ Hd); cbn [after_char].
      rewrite append_empty_r; reflexivity.
    - cbn [String.append after_char].
      destruct (isdigit_not_symbol c Hc) as [-> _].
      rewrite (span_digits_all _ Hd); cbn [after_char].
      rewrite append_empty_r; reflexivity. }
  assert (Hs : Re.search_number text = Some text).
  { destruct text; cbn [Re.search_number]; rewrite Hm; reflexivity. }
  rewrite Hs.
  assert (Hf : Float.of_str text
               = Ok (Float.round_ratio neg (Float.int_of_digits (String c ds)) 1)).
  { unfold Float.of_str; subst text; destruct neg.
    - cbn [String.append after_char]; rewrite Ascii.eqb_refl.
      rewrite (span_digits_all _ Hd); reflexivity.
    - cbn [String.append after_char].
      destruct (isdigit_not_symbol c Hc) as [-> _].
      rewrite (span_digits_all _ Hd); reflexivity. }
  rewrite Hf; reflexivity.
Qed.

(** The number read depends on the trimmed input alone. *)
Lemma parse_number_strip : forall raw,
  _parse_number (Some (strip raw)) = _parse_number (Some raw).
Proof.
  intros raw; unfold _parse_number; rewrite strip_idempotent; reflexivity.
Qed.

Local Open Scope Z_scope.

Lemma int_of_digits_from_nonneg : forall s acc,
  0 <= acc -> 0 <= Float.int_of_digits_from acc s.
Proof.
  induction s as [|c s IH]; intros acc H; cbn [Float.int_of_digits_from];
    [exact H|].
  apply IH; unfold Float.digit_value.
  pose proof (N2Z.is_nonneg (code c - 48)); lia.
Qed.

Lemma int_of_digits_nonneg : forall s, 0 <= Float.int_of_digits s.
Proof. intros s; apply int_of_digits_from_nonneg; lia. Qed.

(** An integer below 2^53 is a float: rounding leaves it as it is. *)
Lemma round_ratio_integer : forall neg n,
  0 < n < 2 ^ 53 ->
  exists (m : positive) k,
    Float.round_ratio neg n 1 = S754_finite neg m (- k)
    /\ 0 <= k /\ Zpos m = n * 2 ^ k.
Proof.
  intros neg n [Hn Hb].
  pose proof (Z.log2_spec n Hn) as [Hl1 Hl2].
  pose proof (Z.log2_nonneg n) as Hl.
  set (l := Z.log2 n) in *.
  assert (Hl52 : l <= 52).
  { destruct (Z.le_gt_cases l 52) as [H|H]; [exact H|exfalso].
    assert (2 ^ 53 <= 2 ^ l) by (apply Z.pow_le_mono_r; lia). lia. }
  unfold Float.round_ratio, Float.ilog2_ratio.
  replace (n <=? 0) with false by (symmetry; apply Z.leb_gt; lia).
  change (Z.log2 1) with 0; fold l.
  replace (Z.max (l - 0) 0) with l by lia.
  replace (Z.max (- (l - 0)) 0) with 0 by lia.
  rewrite Z.pow_0_r, !Z.mul_1_r, Z.mul_1_l.
  replace (2 ^ l <=? n) with true by (symmetry; apply Z.leb_le; lia).
  replace (Z.max (l - 0 - 52) (-1074)) with (- (52 - l)) by lia.
  replace (Z.max (- - (52 - l)) 0) with (52 - l) by lia.
  replace (Z.max (- (52 - l)) 0) with 0 by lia.
  rewrite Z.pow_0_r.
  unfold Float.round_half_even.
  rewrite Z.div_1_r, Z.mod_1_r.
  change (1 * 1 <? 2 * 0) with false; change (1 * 1 =? 2 * 0) with false.
  cbn [orb andb].
  assert (Hp : 0 < 2 ^ (52 - l)) by (apply Z.pow_pos_nonneg; lia).
  assert (Hlt : n * 2 ^ (52 - l) < 2 ^ 53).
  { replace (2 ^ 53) with (2 ^ Z.succ l * 2 ^ (52 - l)).
    - nia.
    - rewrite <- Z.pow_add_r by lia; f_equal; lia. }
  replace (n * 2 ^ (52 - l) =? 2 ^ 53) with false
    by (symmetry; apply Z.eqb_neq; lia).
  destruct (n * 2 ^ (52 - l)) as [|m|m] eqn:E; try nia.
  replace (- (52 - l) <=? 971) with true by (symmetry; apply Z.leb_le; lia).
  exists m, (52 - l); repeat split; lia.
Qed.

Lemma compare_integer : forall n k,
  0 <= n < 2 ^ 53 -> 0 < k ->
  Float.compare (Float.round_ratio false n 1) (Float.of_int k)
  = Some (n ?= k).
Proof.
  intros n k [Hn Hb] Hk.
  destruct k as [|k|k]; try lia.
  destruct (Z.eq_dec n 0) as [-> | Hne]; [reflexivity|].
  destruct (round_ratio_integer false n ltac:(lia)) as (m & j & -> & Hj & Hm).
  cbn [Float.of_int Float.compare Float.signed].
  replace (Z.max (- j - 0) 0) with 0 by lia.
  replace (Z.max (0 - - j) 0) with j by lia.
  rewrite Z.pow_0_r, Z.mul_1_r, Hm.
  assert (Hp : 0 < 2 ^ j) by (apply Z.pow_pos_nonneg; lia).
  f_equal; symmetry; apply Zmult_compare_compat_r; lia.
Qed.

Lemma is_integer_round_ratio : forall n,
  0 <= n < 2 ^ 53 -> is_integer (Float.round_ratio false n 1) n.
Proof.
  intros n [Hn Hb]; unfold is_integer.
  destruct (Z.eq_dec n 0) as [-> | Hne]; [reflexivity|].
  rewrite compare_integer by lia.
  rewrite Z.compare_refl; reflexivity.
Qed.

Local Close Scope Z_scope.

(** X6. A numeric input that is, once trimmed, a run of digits standing for
    an integer below 2^53 parses to exactly that integer. *)
Theorem parse_number_plain_integer :
  forall raw : string,
    digits_only (strip raw) = true ->
    (Float.int_of_digits (strip raw) < 2 ^ 53)%Z ->
    exists v,
      _parse_number (Some raw) = Ok (Some v)
      /\ is_integer v (Float.int_of_digits (strip raw)).
Proof.
  intros raw Hd Hb.
  rewrite <- parse_number_strip.
  pose proof (parse_number_plain false (strip raw) Hd) as H.
  cbn [String.append] in H; rewrite H.
  eexists; split; [reflexivity|].
  apply is_integer_round_ratio.
  split; [apply int_of_digits_nonneg | exact Hb].
Qed.

Lemma parse_number_plain_integer_witness :
  exists v,
    _parse_number (Some "  0042 ") = Ok (Some v)
    /\ is_integer v (Float.int_of_digits (strip "  0042 ")).
Proof.
  apply (parse_number_plain_integer "  0042 "); [reflexivity|].
  vm_compute; reflexivity.
Defined.

(** ** Margin of safety on plain numerals *)

Lemma leb_integer : forall n k,
  (0 <= n < 2 ^ 53)%Z -> (0 < k)%Z ->
  Float.leb (Float.round_ratio false n 1) (Float.of_int k) = (n <=? k)%Z.
Proof.
  intros n k Hn Hk; unfold Float.leb, Z.leb.
  rewrite (compare_integer n k Hn Hk).
  destruct (n ?= k)%Z; reflexivity.
Qed.

Lemma geb_integer : forall n k,
  (0 <= n < 2 ^ 53)%Z -> (0 < k)%Z ->
  Float.geb (Float.round_ratio false n 1) (Float.of_int k) = (k <=? n)%Z.
Proof.
  intros n k Hn Hk; unfold Float.geb, Z.leb.
  rewrite (compare_integer n k Hn Hk), (Z.compare_antisym n k).
  destruct (n ?= k)%Z; reflexivity.
Qed.

Lemma parse_number_digits : forall raw,
  digits_only (strip raw) = true ->
  _parse_number (Some raw)
  = Ok (Some (Float.round_ratio false (Float.int_of_digits (strip raw)) 1)).
Proof.
  intros raw Hd; rewrite <- parse_number_strip.
  exact (parse_number_plain false (strip raw) Hd).
Qed.

(** X7. On inputs that are plain integers below 2^53 the two thresholds are
    exact: the verdict is Pass when the P/E is at most 15 or the yield at
    least 6, and Fail otherwise. *)
Theorem margin_of_safety_on_integers :
  forall pe_text fcf_yield_text : string,
    digits_only (strip pe_text) = true ->
    digits_only (strip fcf_yield_text) = true ->
    (Float.int_of_digits (strip pe_text) < 2 ^ 53)%Z ->
    (Float.int_of_digits (strip fcf_yield_text) < 2 ^ 53)%Z ->
    exists verdict,
      _score_margin_of_safety (Some pe_text) (Some fcf_yield_text) = Ok verdict
      /\ status verdict
         = if ((Float.int_of_digits (strip pe_text) <=? 15)
               || (6 <=? Float.int_of_digits (strip fcf_yield_text)))%Z%bool
           then Pass else Fail.
Proof.
  intros pe fy Hpe Hfy Bpe Bfy.
  unfold _score_margin_of_safety.
  rewrite (parse_number_digits pe Hpe), (parse_number_digits fy Hfy).
  cbn [bind some_and is_some orb fmt_1f].
  rewrite leb_integer, geb_integer
    by (try split; try apply int_of_digits_nonneg; try assumption; lia).
  destruct (Float.int_of_digits (strip pe) <=? 15)%Z; cbn [orb];
    [eexists; split; reflexivity|].
  destruct (6 <=? Float.int_of_digits (strip fy))%Z;
    eexists; split; reflexivity.
Qed.

Lemma margin_of_safety_on_integers_witness :
  exists verdict,
    _score_margin_of_safety (Some "16") (Some " 5 ") = Ok verdict
    /\ status verdict
       = if ((Float.int_of_digits (strip "16") <=? 15)
             || (6 <=? Float.int_of_digits (strip " 5 ")))%Z%bool
         then Pass else Fail.
Proof.
  apply (margin_of_safety_on_integers "16" " 5 ");
    vm_compute; reflexivity.
Defined.

Lemma leb_negative : forall a b k,
  (0 < k)%Z -> Float.leb (Float.round_ratio true a b) (Float.of_int k) = true.
Proof.
  intros a b k Hk; destruct k as [|k|k]; try lia.
  unfold Float.round_ratio.
  destruct (a <=? 0)%Z; [reflexivity|].
  destruct (if (_ =? _)%Z then _ else _) as [m e].
  destruct m as [|m|m]; [reflexivity | | reflexivity].
  destruct (e <=? 971)%Z; [|reflexivity].
  unfold Float.leb, Float.compare, Float.of_int, Float.signed.
  assert (H1 : (0 < 2 ^ Z.max (e - 0) 0)%Z) by (apply Z.pow_pos_nonneg; lia).
  assert (H2 : (0 < 2 ^ Z.max (0 - e) 0)%Z) by (apply Z.pow_pos_nonneg; lia).
  destruct (Z.compare_spec (Z.neg m * 2 ^ Z.max (e - 0) 0)
                           (Z.pos k * 2 ^ Z.max (0 - e) 0)); try reflexivity.
  exfalso; nia.
Qed.

(** X8. A P/E written as a minus sign and digits always passes the P/E
    guardrail, whatever the yield input is: a negative ratio counts as at
    most 15. *)
Theorem margin_of_safety_negative_pe :
  forall (digits : string) (fcf_yield_text : option string),
    digits_only digits = true ->
    exists v,
      _parse_number (Some ("-" ++ digits)) = Ok (Some v)
      /\ sign_bit v = true
      /\ _score_margin_of_safety (Some ("-" ++ digits)) fcf_yield_text
         = Ok (mkFilterResult Pass
                 ("P/E " ++ Float.format_1f v ++ " within <=15 guardrail.")
                 None).
Proof.
  intros digits fy Hd.
  pose proof (parse_number_plain true digits Hd) as Hp.
  exists (Float.round_ratio true (Float.int_of_digits digits) 1).
  split; [exact Hp|]; split.
  - unfold Float.round_ratio.
    destruct (_ <=? 0)%Z; [reflexivity|].
    destruct (if (_ =? _)%Z then _ else _) as [m e].
    destruct m; [reflexivity | | reflexivity].
    destruct (e <=? 971)%Z; reflexivity.
  - destruct (parse_number_total fy) as [y [Hy _]].
    unfold _score_margin_of_safety; rewrite Hp, Hy.
    cbn [bind some_and]; rewrite leb_negative by lia.
    reflexivity.
Qed.

Lemma margin_of_safety_negative_pe_witness :
  exists v,
    _parse_number (Some ("-" ++ "12")) = Ok (Some v)
    /\ sign_bit v = true
    /\ _score_margin_of_safety (Some ("-" ++ "12")) (Some "1")
       = Ok (mkFilterResult Pass
               ("P/E " ++ Float.format_1f v ++ " within <=15 guardrail.")
               None).
Proof.
  apply (margin_of_safety_negative_pe "12" (Some "1")); reflexivity.
Defined.



(** ** Keyword scorers *)

Lemma collect_labels_In : forall table text label,
  In label (collect_labels table text) <->
  exists keyword, In (keyword, label) table /\ str_in keyword text = true.
Proof.
  intros; rewrite collect_labels_spec; apply labels_found_In.
Qed.

Lemma collect_labels_embedding : forall table thesis pre post label,
  In label (collect_labels table (lower thesis)) ->
  In label (collect_labels table (lower (pre ++ thesis ++ post))).
Proof.
  intros table thesis pre post label H.
  apply collect_labels_In in H; destruct H as [k [Hk Hs]].
  apply collect_labels_In; exists k; split; [exact Hk|].
  rewrite !lower_app; apply str_in_embedded, Hs.
Qed.

Lemma status_moat_pass : forall thesis,
  status (_score_moat thesis) = Pass <->
  collect_labels MOAT_KEYWORDS (lower thesis) <> [].
Proof.
  intros thesis; unfold _score_moat.
  destruct (collect_labels MOAT_KEYWORDS (lower thesis)); simpl; split;
    congruence || discriminate.
Qed.

Lemma red_flag_fails : forall thesis label,
  In label (collect_labels MANAGEMENT_RED_FLAGS (lower thesis)) ->
  status (_score_management thesis) = Fail.
Proof.
  intros thesis label H; unfold _score_management.
  destruct (collect_labels MANAGEMENT_RED_FLAGS (lower thesis));
    [contradiction | reflexivity].
Qed.

(** X10. Writing more text around a thesis never removes a hit: every moat
    label found in the thesis is found in the longer text, a moat verdict
    that was Pass stays Pass, and a red flag of the thesis is a red flag of
    the longer text, whose management verdict is Fail. *)
Theorem keyword_hits_survive_more_text :
  forall thesis pre post : string,
    (forall label,
        In label (collect_labels MOAT_KEYWORDS (lower thesis)) ->
        In label (collect_labels MOAT_KEYWORDS (lower (pre ++ thesis ++ post))))
    /\ (status (_score_moat thesis) = Pass ->
        status (_score_moat (pre ++ thesis ++ post)) = Pass)
    /\ (forall label,
          In label (collect_labels MANAGEMENT_RED_FLAGS (lower thesis)) ->
          In label (collect_labels MANAGEMENT_RED_FLAGS
                      (lower (pre ++ thesis ++ post)))
          /\ status (_score_management (pre ++ thesis ++ post)) = Fail).
Proof.
  intros thesis pre post; split; [|split].
  - intros label; apply collect_labels_embedding.
  - rewrite !status_moat_pass; intros H.
    destruct (collect_labels MOAT_KEYWORDS (lower thesis)) as [|l ls] eqn:E;
      [congruence|].
    assert (Hin : In l (collect_labels MOAT_KEYWORDS
                          (lower (pre ++ thesis ++ post)))).
    { apply collect_labels_embedding; rewrite E; left; reflexivity. }
    intros E'; rewrite E' in Hin; exact Hin.
  - intros label H.
    pose proof (collect_labels_embedding _ _ pre post _ H) as H'.
    split; [exact H' | exact (red_flag_fails _ _ H')].
Qed.

Lemma keyword_hits_survive_more_text_witness :
  status (_score_moat ("Now: " ++ "a real flywheel" ++ ", and growing")) = Pass.
Proof.
  apply (proj1 (proj2 (keyword_hits_survive_more_text
                         "a real flywheel" "Now: " ", and growing")));
    reflexivity.
Defined.

(** X11. Keywords are matched as pieces of text, in any letter case and
    also inside longer words: a thesis that holds a red-flag keyword
    anywhere fails the management filter with that flag's label listed, and
    one that holds a moat keyword anywhere passes the moat filter with that
    keyword's label among the matched keywords. *)
Theorem keyword_anywhere_counts :
  forall keyword label word pre post : string,
    lower word = keyword ->
    (In (keyword, label) MANAGEMENT_RED_FLAGS ->
     status (_score_management (pre ++ word ++ post)) = Fail
     /\ In label (collect_labels MANAGEMENT_RED_FLAGS
                    (lower (pre ++ word ++ post))))
    /\ (In (keyword, label) MOAT_KEYWORDS ->
        status (_score_moat (pre ++ word ++ post)) = Pass
        /\ exists found,
             hits (_score_moat (pre ++ word ++ post)) = Some found
             /\ In label found).
Proof.
  intros keyword label word pre post E.
  assert (Hs : str_in keyword (lower (pre ++ word ++ post)) = true).
  { rewrite !lower_app, E; apply str_in_middle. }
  split; intros Hin.
  - assert (H : In label (collect_labels MANAGEMENT_RED_FLAGS
                            (lower (pre ++ word ++ post)))).
    { apply collect_labels_In; exists keyword; auto. }
    split; [exact (red_flag_fails _ _ H) | exact H].
  - assert (H : In label (collect_labels MOAT_KEYWORDS
                            (lower (pre ++ word ++ post)))).
    { apply collect_labels_In; exists keyword; auto. }
    unfold _score_moat.
    destruct (collect_labels MOAT_KEYWORDS (lower (pre ++ word ++ post)))
      as [|l ls]; [contradiction|].
    cbn [nonempty status hits]; split; [reflexivity|].
    eexists; split; [reflexivity | exact H].
Qed.

Lemma keyword_anywhere_counts_witness :
  status (_score_management
            ("Founder-led leader of the chip " ++ "Sec" ++ "tor")) = Fail
  /\ In "SEC scrutiny"
        (collect_labels MANAGEMENT_RED_FLAGS
           (lower ("Founder-led leader of the chip " ++ "Sec" ++ "tor"))).
Proof.
  apply (proj1 (keyword_anywhere_counts "sec" "SEC scrutiny" "Sec"
                  "Founder-led leader of the chip " "tor" eq_refl)).
  vm_compute; tauto.
Defined.

(** ** Bias ranker *)




(** ** Inversion advisor on the moat verdict of the same thesis *)

(** Whenever a rule keyword occurs in a moat label, the moat keyword that
    yields the label is itself a keyword of the rule. *)
Lemma rule_label_keyword :
  forallb
    (fun rule =>
       forallb
         (fun entry =>
            implb (existsb (fun k => str_in k (lower (snd entry))) (fst rule))
                  (list_in (fst entry) (fst rule)))
         MOAT_KEYWORDS)
    INVERSION_RULES = true.
Proof. vm_compute. reflexivity. Qed.

Lemma find_ext_in : forall (A : Type) (p q : A -> bool) (l : list A),
  (forall x, In x l -> p x = q x) -> find p l = find q l.
Proof.
  intros A p q l H; induction l as [|x l IH]; simpl; [reflexivity|].
  rewrite (H x (or_introl eq_refl)).
  destruct (q x); [reflexivity|].
  apply IH; intros y Hy; apply H; right; exact Hy.
Qed.

Lemma moat_labels_add_nothing : forall text rule,
  In rule INVERSION_RULES ->
  rule_firesb text (map lower (collect_labels MOAT_KEYWORDS text)) rule
  = rule_firesb text [] rule.
Proof.
  intros text rule Hr; unfold rule_firesb; cbn [nonempty andb].
  rewrite orb_false_r.
  destruct (existsb (fun k => str_in k text) (fst rule)) eqn:Ea;
    [reflexivity|]; cbn [orb].
  destruct (nonempty _ && _)%bool eqn:Eb; [|reflexivity].
  exfalso.
  apply andb_true_iff in Eb; destruct Eb as [_ Eb].
  apply existsb_exists in Eb; destruct Eb as [hit [Hhit Hk]].
  apply in_map_iff in Hhit; destruct Hhit as [label [<- Hl]].
  apply collect_labels_In in Hl; destruct Hl as [keyword [Hin Hs]].
  pose proof rule_label_keyword as F.
  rewrite forallb_forall in F; specialize (F rule Hr).
  rewrite forallb_forall in F; specialize (F (keyword, label) Hin).
  cbn [fst snd] in F; rewrite Hk in F; cbn [implb] in F.
  apply list_in_In in F.
  assert (Ht : existsb (fun k => str_in k text) (fst rule) = true).
  { apply existsb_exists; exists keyword; auto. }
  congruence.
Qed.

(** X13. Inside [four_filters] the matched labels of the moat verdict never
    change the inversion prompt: the prompt for a thesis and its own moat
    verdict is the one the thesis alone gives, for every rule that a moat
    label would fire is fired by the keyword that produced the label. *)
Theorem invert_question_decided_by_thesis :
  forall thesis : string,
    _invert_question thesis (_score_moat thesis)
    = _invert_question thesis moat_fail.
Proof.
  intros thesis; rewrite !invert_question_find.
  assert (E : matched_labels (_score_moat thesis)
              = collect_labels MOAT_KEYWORDS (lower thesis)).
  { unfold matched_labels, _score_moat.
    destruct (collect_labels MOAT_KEYWORDS (lower thesis)); reflexivity. }
  rewrite E; change (map lower (matched_labels moat_fail)) with (@nil string).
  rewrite (find_ext_in _ _ (rule_firesb (lower thesis) [])); [reflexivity|].
  intros rule Hr; apply moat_labels_add_nothing, Hr.
Qed.

(** ** Posture *)

Lemma filter_length_permutation : forall (A : Type) (p : A -> bool) l l',
  Permutation l l' ->
  List.length (filter p l) = List.length (filter p l').
Proof.
  intros A p l l' H; induction H as [| x l l' H IH | x y l | l l' l'' H1 IH1 H2 IH2];
    simpl; [reflexivity | | | congruence].
  - destruct (p x); simpl; congruence.
  - destruct (p x), (p y); reflexivity.
Qed.

(** X14. The posture does not depend on the order of the filters: any
    rearrangement of the dictionary gives the same posture. *)
Theorem posture_ignores_order :
  forall fs fs' : list (string * FilterResult),
    Permutation fs fs' -> _posture fs = _posture fs'.
Proof.
  intros fs fs' H; unfold _posture, count_status, len, values.
  assert (E : forall s,
             List.length (filter (fun f => String.eqb (status f) s) (map snd fs))
             = List.length (filter (fun f => String.eqb (status f) s)
                              (map snd fs'))).
  { intros s; apply filter_length_permutation, Permutation_map, H. }
  rewrite !E; reflexivity.
Qed.

Lemma posture_ignores_order_witness :
  _posture [("Moat", mkFilterResult Fail "" None);
            ("Management", mkFilterResult Pass "" None)]
  = _posture [("Management", mkFilterResult Pass "" None);
              ("Moat", mkFilterResult Fail "" None)].
Proof.
  apply posture_ignores_order, perm_swap.
Defined.

(** ** The report *)

Lemma build_copy_loop : forall (fs : list (string * FilterResult))
  (lines : list string),
  fold_left
    (fun lines '(name, result) =>
       let detail :=
         if truthy (details result) then " — " ++ details result else "" in
       Logic.append lines (name ++ ": " ++ status result ++ detail))
    fs lines
  = (lines ++ map report_line fs)%list.
Proof.
  induction fs as [|[name result] fs IH]; intros lines; simpl.
  - rewrite app_nil_r; reflexivity.
  - rewrite IH; unfold Logic.append; rewrite <- app_assoc; reflexivity.
Qed.

Lemma build_copy_lines : forall fs invert biases posture,
  _build_copy fs invert biases posture
  = join nl (report_lines fs invert biases posture).
Proof.
  intros fs invert biases posture; unfold _build_copy, report_lines.
  rewrite build_copy_loop.
  unfold Logic.append; rewrite <- !app_assoc; reflexivity.
Qed.

(** X15. The report is its lines joined by line feeds: the header, one line
    "name: status" per filter in dictionary order, followed by a dash and
    the details only when the details are not empty, then the Invert, Bias
    Risks and Posture lines; that is four lines more than there are
    filters. *)
Theorem build_copy_layout :
  forall (fs : list (string * FilterResult)) (invert : string)
         (biases : list string) (posture : string),
    _build_copy fs invert biases posture
    = join nl (report_lines fs invert biases posture)
    /\ List.length (report_lines fs invert biases posture)
       = (List.length fs + 4)%nat
    /\ (forall name st h,
          report_line (name, mkFilterResult st "" h) = name ++ ": " ++ st).
Proof.
  intros fs invert biases posture; split; [|split].
  - apply build_copy_lines.
  - unfold report_lines; simpl; rewrite length_app, length_map; simpl; lia.
  - intros name st h; unfold report_line; simpl.
    rewrite append_empty_r; reflexivity.
Qed.

(** ** The verdicts of a snapshot *)

Lemma join_nonempty : forall sep x rest,
  x <> EmptyString -> join sep (x :: rest) <> EmptyString.
Proof.
  intros sep x rest Hx; unfold join; simpl.
  destruct rest; [exact Hx|].
  destruct x; [congruence | discriminate].
Qed.

Lemma table_labels_nonempty :
  forallb (fun kv => truthy (snd kv))
          (MOAT_KEYWORDS ++ MANAGEMENT_POSITIVE ++ MANAGEMENT_RED_FLAGS)%list
  = true.
Proof. reflexivity. Qed.

Lemma join_collect_labels_nonempty : forall table text,
  incl table (MOAT_KEYWORDS ++ MANAGEMENT_POSITIVE ++ MANAGEMENT_RED_FLAGS)%list ->
  collect_labels table text <> [] ->
  join ", " (collect_labels table text) <> EmptyString.
Proof.
  intros table text Hincl Hne.
  destruct (collect_labels table text) as [|l ls] eqn:E; [congruence|].
  apply join_nonempty.
  assert (Hin : In l (collect_labels table text)) by (rewrite E; left; reflexivity).
  apply collect_labels_In in Hin; destruct Hin as [k [Hk _]].
  pose proof table_labels_nonempty as F; rewrite forallb_forall in F.
  specialize (F (k, l) (Hincl _ Hk)); simpl in F.
  intros ->; discriminate F.
Qed.

Lemma understandable_shape : forall thesis v,
  _score_understandable thesis = Ok v ->
  (status v = Pass \/ status v = Fail)
  /\ details v <> EmptyString /\ hits v = None
  /\ (strip thesis <> EmptyString -> details v <> msg_empty).
Proof.
  intros thesis v H.
  destruct (strip thesis) as [|c t] eqn:E.
  - unfold _score_understandable in H; rewrite E in H.
    injection H as <-; cbn [status details hits].
    split; [auto|]; split; [discriminate|]; split; [reflexivity|].
    intros C; congruence.
  - assert (Hne : strip thesis <> EmptyString) by (rewrite E; discriminate).
    destruct (truediv_at_most_one _ _
                (long_words_at_most_words (strip thesis)))
      as [ratio [Hr _]]; [lia|].
    rewrite (score_understandable_nonempty thesis ratio Hne Hr) in H.
    injection H as <-.
    destruct (len (first_sentence_words (strip thesis)) <=? 30)%Z,
             (Float.leb ratio float_0_2),
             (_count_paragraphs (strip thesis) <=? 2)%Z;
      cbn [andb status details hits];
      (split; [auto|]); (split; [vm_compute; discriminate|]);
      (split; [reflexivity|]); intros _; vm_compute; discriminate.
Qed.

Lemma moat_shape : forall thesis,
  let v := _score_moat thesis in
  (status v = Pass \/ status v = Fail)
  /\ details v <> EmptyString
  /\ (hits v = None <-> status v = Fail).
Proof.
  intros thesis v; subst v; unfold _score_moat.
  pose proof (join_collect_labels_nonempty MOAT_KEYWORDS (lower thesis)) as J.
  destruct (collect_labels MOAT_KEYWORDS (lower thesis)) as [|l ls].
  - cbn; repeat split; auto; discriminate.
  - cbn [nonempty status details hits]; split; [auto|]; split.
    + apply J; [|discriminate].
      intros x Hx; apply in_or_app; left; exact Hx.
    + split; discriminate.
Qed.

Lemma management_shape : forall thesis,
  let v := _score_management thesis in
  (status v = Pass \/ status v = Fail)
  /\ details v <> EmptyString /\ hits v = None.
Proof.
  intros thesis v; subst v; unfold _score_management.
  pose proof (join_collect_labels_nonempty MANAGEMENT_POSITIVE (lower thesis))
    as J.
  destruct (collect_labels MANAGEMENT_RED_FLAGS (lower thesis)) as [|l ls].
  - destruct (collect_labels MANAGEMENT_POSITIVE (lower thesis)) as [|p ps].
    + cbn; repeat split; auto; discriminate.
    + cbn [nonempty status details hits]; split; [auto|]; split; [|reflexivity].
      apply J; [|discriminate].
      intros x Hx; apply in_or_app; right; apply in_or_app; left; exact Hx.
  - cbn [nonempty status details hits]; repeat split; auto; discriminate.
Qed.

Lemma margin_shape : forall pe_text fcf_yield_text v,
  _score_margin_of_safety pe_text fcf_yield_text = Ok v ->
  (status v = Pass \/ status v = Fail \/ status v = NeedsData)
  /\ details v <> EmptyString /\ hits v = None.
Proof.
  intros pe_text fy_text v.
  destruct (parse_number_total pe_text) as [pe [Hpe _]].
  destruct (parse_number_total fy_text) as [fy [Hfy _]].
  unfold _score_margin_of_safety; rewrite Hpe, Hfy; cbn [bind].
  destruct pe as [p|], fy as [y|]; cbn [some_and is_some orb];
    try destruct (Float.leb p (Float.of_int 15));
    try destruct (Float.geb y (Float.of_int 6));
    cbn [fmt_1f bind]; intros H; injection H as <-;
    cbn [status details hits];
    (split; [auto|]); (split; [|reflexivity]);
    unfold Logic.append; cbn [app join String.concat String.append];
    discriminate.
Qed.

(** X16. Every verdict of a snapshot carries details that are not empty.
    The Understandable, Moat and Management verdicts are Pass or Fail, only
    the margin of safety can be NeedsData, and only the moat verdict carries
    matched keywords, exactly when it is Pass. *)
Theorem snapshot_verdicts :
  forall (thesis : string) (pe_text fcf_yield_text : option string),
    exists snapshot u m g s,
      four_filters thesis pe_text fcf_yield_text = Ok snapshot
      /\ filters snapshot = filters_of u m g s
      /\ Forall (fun v => details v <> EmptyString) [u; m; g; s]
      /\ Forall (fun v => status v = Pass \/ status v = Fail) [u; m; g]
      /\ (status s = Pass \/ status s = Fail \/ status s = NeedsData)
      /\ hits u = None /\ hits g = None /\ hits s = None
      /\ (hits m = None <-> status m = Fail).
Proof.
  intros thesis pe_text fy_text.
  destruct (four_filters_total thesis pe_text fy_text)
    as (u & s & Hu & Hs & Hf).
  destruct (understandable_shape thesis u Hu) as (U1 & U2 & U3 & _).
  destruct (moat_shape thesis) as (M1 & M2 & M3).
  destruct (management_shape thesis) as (G1 & G2 & G3).
  destruct (margin_shape pe_text fy_text s Hs) as (S1 & S2 & S3).
  eexists; exists u, (_score_moat thesis), (_score_management thesis), s.
  split; [exact Hf|]; cbn [filters].
  split; [reflexivity|].
  split; [repeat (apply Forall_cons; [assumption|]); apply Forall_nil|].
  split; [repeat (apply Forall_cons; [assumption|]); apply Forall_nil|].
  repeat split; try assumption; apply M3.
Qed.

Lemma posture_go_cases : forall du dm dg ds hu hm hg hs su sm sg ss,
  (su = Pass \/ su = Fail) -> (sm = Pass \/ sm = Fail) ->
  (sg = Pass \/ sg = Fail) ->
  (ss = Pass \/ ss = Fail \/ ss = NeedsData) ->
  let p := _posture (filters_of (mkFilterResult su du hu)
                       (mkFilterResult sm dm hm) (mkFilterResult sg dg hg)
                       (mkFilterResult ss ds hs)) in
  (p = "Go" <-> su = Pass /\ sm = Pass /\ sg = Pass /\ ss = Pass)
  /\ (ss = NeedsData -> p = "Wait" \/ p = "No")
  /\ (sm = Fail -> sg = Fail -> p = "No").
Proof.
  intros du dm dg ds hu hm hg hs su sm sg ss Hu Hm Hg Hs p; subst p.
  destruct Hu as [-> | ->], Hm as [-> | ->], Hg as [-> | ->],
           Hs as [-> | [-> | ->]];
    vm_compute; (split; [split; [intros H; try discriminate H; auto
                                | intros (A & B & C & D);
                                  try discriminate A; try discriminate B;
                                  try discriminate C; try discriminate D;
                                  reflexivity]
                        | split; [intros H; try discriminate H; auto
                                 | intros A B; try discriminate A;
                                   try discriminate B; reflexivity]]).
Qed.

(** X17. The posture of a snapshot is "Go" exactly when all four of its
    verdicts are Pass. *)
Theorem snapshot_go_iff_all_pass :
  forall (thesis : string) (pe_text fcf_yield_text : option string),
    exists snapshot,
      four_filters thesis pe_text fcf_yield_text = Ok snapshot
      /\ (posture snapshot = "Go" <->
          forall name, In name filter_names ->
                       status_of snapshot name = Some Pass).
Proof.
  intros thesis pe_text fy_text.
  destruct (four_filters_total thesis pe_text fy_text)
    as (u & s & Hu & Hs & Hf).
  destruct (understandable_shape thesis u Hu) as (U1 & _).
  destruct (moat_shape thesis) as (M1 & _).
  destruct (management_shape thesis) as (G1 & _).
  destruct (margin_shape pe_text fy_text s Hs) as (S1 & _).
  eexists; split; [exact Hf|]; cbn [posture].
  destruct u as [su du hu], s as [ss ds hs].
  destruct (_score_moat thesis) as [sm dm hm].
  destruct (_score_management thesis) as [sg dg hg].
  cbn [status] in *.
  rewrite (proj1 (posture_go_cases du dm dg ds hu hm hg hs su sm sg ss
                    U1 M1 G1 S1)).
  unfold status_of, filter_names; cbn [filters]; split.
  - intros (-> & -> & -> & ->) name Hin.
    simpl in Hin; destruct Hin as [<- | [<- | [<- | [<- | []]]]]; reflexivity.
  - intros H.
    pose proof (H "Understandable" ltac:(simpl; tauto)) as A.
    pose proof (H "Moat" ltac:(simpl; tauto)) as B.
    pose proof (H "Management" ltac:(simpl; tauto)) as C.
    pose proof (H "Margin of Safety" ltac:(simpl; tauto)) as D.
    cbn in A, B, C, D.
    injection A as ->; injection B as ->; injection C as ->; injection D as ->.
    repeat split.
Qed.



(** ** A thesis without letters *)

Lemma letter_lower_char : forall c, letter (lower_char c) = letter c.
Proof. intros c; all_chars c; reflexivity. Qed.

Lemma none_of_prefix : forall p k t,
  prefix k t = true -> none_of p t = true -> none_of p k = true.
Proof.
  intros p k t; revert k; induction t as [|d t IH]; intros k Hk Ht.
  - destruct k; [reflexivity | discriminate Hk].
  - destruct k as [|c k]; [reflexivity|].
    simpl in Hk; destruct (ascii_dec c d) as [-> |]; [|discriminate Hk].
    simpl in *; apply andb_true_iff in Ht; destruct Ht as [-> Ht].
    apply (IH k Hk Ht).
Qed.

(** What occurs in a text is made of characters of the text. *)
Lemma none_of_str_in : forall p k t,
  str_in k t = true -> none_of p t = true -> none_of p k = true.
Proof.
  intros p k t; induction t as [|d t IH]; cbn [str_in]; intros Hk Ht.
  - rewrite orb_false_r in Hk; exact (none_of_prefix p k _ Hk Ht).
  - apply orb_true_iff in Hk; destruct Hk as [Hk | Hk].
    + exact (none_of_prefix p k _ Hk Ht).
    + apply IH; [exact Hk|].
      simpl in Ht; apply andb_true_iff in Ht; tauto.
Qed.

(** Every keyword of every table holds a letter. *)
Lemma keywords_have_letters :
  forallb (fun k => negb (none_of letter k))
    (map fst MOAT_KEYWORDS ++ map fst MANAGEMENT_POSITIVE
     ++ map fst MANAGEMENT_RED_FLAGS
     ++ flat_map (fun e => snd (snd e)) BIAS_KEYWORDS
     ++ flat_map fst INVERSION_RULES)%list = true.
Proof. vm_compute. reflexivity. Qed.

Lemma keyword_absent : forall thesis k,
  none_of letter thesis = true ->
  In k (map fst MOAT_KEYWORDS ++ map fst MANAGEMENT_POSITIVE
        ++ map fst MANAGEMENT_RED_FLAGS
        ++ flat_map (fun e => snd (snd e)) BIAS_KEYWORDS
        ++ flat_map fst INVERSION_RULES)%list ->
  str_in k (lower thesis) = false.
Proof.
  intros thesis k Hn Hk.
  pose proof keywords_have_letters as F; rewrite forallb_forall in F.
  specialize (F k Hk); apply negb_true_iff in F.
  destruct (str_in k (lower thesis)) eqn:E; [|reflexivity].
  rewrite <- (none_of_lower letter thesis letter_lower_char) in Hn.
  rewrite (none_of_str_in letter k _ E Hn) in F; discriminate F.
Qed.

Lemma collect_labels_none : forall table text,
  (forall k l, In (k, l) table -> str_in k text = false) ->
  collect_labels table text = [].
Proof.
  intros table text H.
  destruct (collect_labels table text) as [|l ls] eqn:E; [reflexivity|].
  assert (Hin : In l (collect_labels table text)) by (rewrite E; left; reflexivity).
  apply collect_labels_In in Hin; destruct Hin as [k [Hk Hs]].
  rewrite (H k l Hk) in Hs; discriminate Hs.
Qed.

Lemma existsb_none : forall (A : Type) (p : A -> bool) l,
  (forall x, In x l -> p x = false) -> existsb p l = false.
Proof.
  intros A p l H; induction l as [|x l IH]; simpl; [reflexivity|].
  rewrite (H x (or_introl eq_refl)); apply IH.
  intros y Hy; apply H; right; exact Hy.
Qed.

(** X19. A thesis without any letter scores "No" whatever the numeric
    inputs: no keyword can occur in it, so the moat and management verdicts
    are Fail with their fixed prompts, the inversion prompt is the generic
    one and the bias risks are the first three categories. *)
Theorem snapshot_of_letterless_thesis :
  forall (thesis : string) (pe_text fcf_yield_text : option string),
    none_of letter thesis = true ->
    exists snapshot,
      four_filters thesis pe_text fcf_yield_text = Ok snapshot
      /\ getitem (filters snapshot) "Moat" = Ok moat_fail
      /\ getitem (filters snapshot) "Management"
         = Ok (mkFilterResult Fail msg_management None)
      /\ invert snapshot = msg_invert_generic
      /\ biases snapshot = firstn 3 bias_names
      /\ posture snapshot = "No".
Proof.
  intros thesis pe_text fy_text Hn.
  destruct (four_filters_total thesis pe_text fy_text)
    as (u & s & Hu & Hs & Hf).
  assert (Hmoat : _score_moat thesis = moat_fail).
  { unfold _score_moat; rewrite collect_labels_none; [reflexivity|].
    intros k l Hin; apply keyword_absent; [exact Hn|].
    apply in_or_app; left; apply (in_map fst _ _ Hin). }
  assert (Hman : _score_management thesis
                 = mkFilterResult Fail msg_management None).
  { unfold _score_management; rewrite !collect_labels_none; [reflexivity | |].
    - intros k l Hin; apply keyword_absent; [exact Hn|].
      apply in_or_app; right; apply in_or_app; left.
      apply (in_map fst _ _ Hin).
    - intros k l Hin; apply keyword_absent; [exact Hn|].
      apply in_or_app; right; apply in_or_app; right; apply in_or_app; left.
      apply (in_map fst _ _ Hin). }
  assert (Hinv : _invert_question thesis moat_fail = msg_invert_generic).
  { rewrite invert_question_find.
    change (map lower (matched_labels moat_fail)) with (@nil string).
    rewrite find_nowhere; [reflexivity|].
    intros rule Hr; unfold rule_firesb; cbn [nonempty andb].
    rewrite orb_false_r; apply existsb_none.
    intros k Hk; apply keyword_absent; [exact Hn|].
    do 4 (apply in_or_app; right).
    apply in_flat_map; exists rule; auto. }
  assert (Hbias : _rank_biases thesis = firstn 3 bias_names).
  { destruct (rank_biases_cases thesis) as [E _]; rewrite E.
    unfold bias_ranking.
    assert (T : forall c, triggered (lower thesis) c = false).
    { intros c; unfold triggered; apply existsb_none.
      intros e He; apply andb_false_iff; right; apply existsb_none.
      intros k Hk; apply keyword_absent; [exact Hn|].
      do 3 (apply in_or_app; right); apply in_or_app; left.
      apply in_flat_map; exists e; auto. }
    unfold bias_names; cbn [filter]; rewrite !T; reflexivity. }
  eexists; split; [exact Hf|].
  cbn [filters invert biases posture].
  rewrite Hmoat, Hman, Hinv, Hbias.
  split; [reflexivity|]; split; [reflexivity|].
  split; [reflexivity|]; split; [reflexivity|].
  destruct (understandable_shape thesis u Hu) as (U1 & _).
  destruct (margin_shape pe_text fy_text s Hs) as (S1 & _).
  destruct u as [su du hu], s as [ss ds hs]; cbn [status] in *.
  apply (posture_go_cases du msg_moat msg_management ds hu None None hs
           su Fail Fail ss U1 (or_intror eq_refl) (or_intror eq_refl) S1);
    reflexivity.
Qed.

Lemma snapshot_of_letterless_thesis_witness :
  exists snapshot,
    four_filters "2024: +35% (!)" (Some "9") None = Ok snapshot
    /\ getitem (filters snapshot) "Moat" = Ok moat_fail
    /\ getitem (filters snapshot) "Management"
       = Ok (mkFilterResult Fail msg_management None)
    /\ invert snapshot = msg_invert_generic
    /\ biases snapshot = firstn 3 bias_names
    /\ posture snapshot = "No".
Proof.
  apply (snapshot_of_letterless_thesis "2024: +35% (!)" (Some "9") None).
  reflexivity.
Defined.

(** X20. The report of a snapshot has exactly eight lines: the header, the
    four filter lines in the order Understandable, Moat, Management, Margin
    of Safety, each with its status, a dash and its details, then the
    Invert, Bias Risks and Posture lines of the same snapshot. *)
Theorem snapshot_report :
  forall (thesis : string) (pe_text fcf_yield_text : option string),
    exists snapshot u m g s,
      four_filters thesis pe_text fcf_yield_text = Ok snapshot
      /\ filters snapshot = filters_of u m g s
      /\ copy_text snapshot
         = join nl
             [ "Four-Filters Snapshot";
               "Understandable: " ++ status u ++ " — " ++ details u;
               "Moat: " ++ status m ++ " — " ++ details m;
               "Management: " ++ status g ++ " — " ++ details g;
               "Margin of Safety: " ++ status s ++ " — " ++ details s;
               "Invert: " ++ invert snapshot;
               "Bias Risks: " ++ join ", " (biases snapshot);
               "Posture: " ++ posture snapshot ].
Proof.
  intros thesis pe_text fy_text.
  destruct (four_filters_total thesis pe_text fy_text)
    as (u & s & Hu & Hs & Hf).
  destruct (understandable_shape thesis u Hu) as (_ & U2 & _).
  destruct (moat_shape thesis) as (_ & M2 & _).
  destruct (management_shape thesis) as (_ & G2 & _).
  destruct (margin_shape pe_text fy_text s Hs) as (_ & S2 & _).
  eexists; exists u, (_score_moat thesis), (_score_management thesis), s.
  split; [exact Hf|]; cbn [filters copy_text invert biases posture].
  split; [reflexivity|].
  rewrite build_copy_lines.
  unfold report_lines, filters_of, filter_names; cbn [combine map app].
  unfold report_line; cbn [fst snd].
  destruct (details u); [congruence|].
  destruct (details (_score_moat thesis)); [congruence|].
  destruct (details (_score_management thesis)); [congruence|].
  destruct (details s); [congruence|].
  reflexivity.
Qed.

(** ** The form handler *)

Lemma snap_cases : forall form,
  let thesis := strip (App.form_get form "thesis" "") in
  let pe := strip (App.form_get form "pe" "") in
  let fy := strip (App.form_get form "fcf_yield" "") in
  let n := Z.of_nat (String.length thesis) in
  (thesis = EmptyString
   /\ App.snap form
      = Ok (App.mkContext None thesis pe fy (Some App.msg_no_thesis) n))
  \/ (thesis <> EmptyString /\ (1200 < n)%Z
      /\ App.snap form
         = Ok (App.mkContext None thesis pe fy (Some App.msg_too_long) n))
  \/ (thesis <> EmptyString /\ (n <= 1200)%Z
      /\ exists snapshot,
           four_filters thesis (App.or_none pe) (App.or_none fy) = Ok snapshot
           /\ App.snap form
              = Ok (App.mkContext (Some snapshot) thesis pe fy None n)).
Proof.
  intros form thesis pe fy n; unfold App.snap.
  fold thesis; fold pe; fold fy; fold n.
  destruct thesis as [|c t] eqn:E; cbn [truthy negb].
  - left; split; reflexivity.
  - right.
    destruct (1200 <? n)%Z eqn:En.
    + left; apply Z.ltb_lt in En.
      split; [discriminate|]; split; [exact En | reflexivity].
    + right; apply Z.ltb_ge in En.
      split; [discriminate|]; split; [exact En|].
      destruct (four_filters_total (String c t) (App.or_none pe)
                  (App.or_none fy)) as (u & s & _ & _ & Hf).
      eexists; split; [exact Hf|].
      rewrite Hf; reflexivity.
Qed.



(** X22. Through the form handler the Understandable filter never answers
    with its empty-thesis message: the handler rejects an empty thesis
    before the analysis, so the verdict of a result is always decided by
    the summary, jargon and segments conditions. *)
Theorem snap_never_scores_empty_thesis :
  forall (form : list (string * string)) ctx snapshot,
    App.snap form = Ok ctx ->
    App.result ctx = Some snapshot ->
    exists verdict,
      getitem (filters snapshot) "Understandable" = Ok verdict
      /\ details verdict <> msg_empty.
Proof.
  intros form ctx snapshot Hs Hr.
  destruct (snap_cases form)
    as [[E H] | [(Hne & Hn & H) | (Hne & Hn & snap' & Hf & H)]];
    rewrite H in Hs; injection Hs as <-; cbn [App.result] in Hr;
    try discriminate Hr.
  injection Hr as ->.
  destruct (four_filters_total (strip (App.form_get form "thesis" ""))
              (App.or_none (strip (App.form_get form "pe" "")))
              (App.or_none (strip (App.form_get form "fcf_yield" ""))))
    as (u & s & Hu & _ & Hf').
  rewrite Hf' in Hf; injection Hf as <-; cbn [filters].
  exists u; split; [reflexivity|].
  apply (understandable_shape _ u Hu).
  rewrite strip_idempotent; exact Hne.
Qed.

Lemma snap_never_scores_empty_thesis_witness :
  exists verdict,
    getitem (filters (the_snapshot (four_filters "A moat." None None)))
      "Understandable" = Ok verdict
    /\ details verdict <> msg_empty.
Proof.
  apply (snap_never_scores_empty_thesis [("thesis", " A moat. ")]
           (App.mkContext
              (Some (the_snapshot (four_filters "A moat." None None)))
              "A moat." "" "" None 7));
    reflexivity.
Defined.




(** ** What the number parser ignores *)

Lemma space_not_numeral : forall c,
  isspace c = true ->
  Ascii.eqb c "-" = false /\ Ascii.eqb c "." = false /\ isdigit c = false
  /\ Ascii.eqb "%" c = false /\ Ascii.eqb "~" c = false.
Proof. intros c; all_chars c; intros H; repeat split; congruence. Qed.

Lemma sign_lower_char : forall c,
  Ascii.eqb "%" (lower_char c) = Ascii.eqb "%" c
  /\ Ascii.eqb "~" (lower_char c) = Ascii.eqb "~" c.
Proof. intros c; all_chars c; split; reflexivity. Qed.

Lemma blank_head : forall c w,
  none_of visible (String c w) = true ->
  isspace c = true /\ none_of visible w = true.
Proof.
  intros c w H; cbn [none_of] in H; apply andb_true_iff in H.
  destruct H as [Hc Hw]; unfold visible in Hc.
  rewrite negb_involutive in Hc; auto.
Qed.

Lemma span_digits_app_blank : forall y w,
  none_of visible w = true ->
  Re.span_digits (y ++ w)
  = (fst (Re.span_digits y), snd (Re.span_digits y) ++ w).
Proof.
  intros y w Hw; induction y as [|c y IH]; cbn [String.append].
  - destruct w as [|d w]; [reflexivity|].
    destruct (blank_head d w Hw) as [Hd _].
    destruct (space_not_numeral d Hd) as (_ & _ & Hn & _).
    cbn [Re.span_digits]; rewrite Hn; reflexivity.
  - cbn [Re.span_digits]; destruct (isdigit c); [|reflexivity].
    rewrite IH; destruct (Re.span_digits y); reflexivity.
Qed.

Lemma after_char_app_blank : forall d y w,
  isspace d = false -> none_of visible w = true ->
  after_char d (y ++ w)
  = match after_char d y with
    | Some r => Some (r ++ w)
    | None => None
    end.
Proof.
  intros d y w Hd Hw; destruct y as [|c y]; cbn [String.append after_char].
  - destruct w as [|e w]; [reflexivity|].
    destruct (blank_head e w Hw) as [He _]; cbn [after_char].
    destruct (Ascii.eqb_spec e d) as [-> |]; [congruence | reflexivity].
  - destruct (Ascii.eqb c d); reflexivity.
Qed.

Lemma match_number_app_blank : forall y w,
  none_of visible w = true -> Re.match_number (y ++ w) = Re.match_number y.
Proof.
  intros y w Hw; unfold Re.match_number.
  rewrite (after_char_app_blank "-" y w eq_refl Hw).
  assert (Hbody : forall sign body,
    (let '(ip, rest) := Re.span_digits (body ++ w) in
     match ip with
     | EmptyString => None
     | String _ _ =>
         Some (sign ++ ip ++
               match after_char "." rest with
               | Some r =>
                   match Re.span_digits r with
                   | (String d fd, _) => String "."%char (String d fd)
                   | _ => EmptyString
                   end
               | None => EmptyString
               end)
     end)
    = (let '(ip, rest) := Re.span_digits body in
       match ip with
       | EmptyString => None
       | String _ _ =>
           Some (sign ++ ip ++
                 match after_char "." rest with
                 | Some r =>
                     match Re.span_digits r with
                     | (String d fd, _) => String "."%char (String d fd)
                     | _ => EmptyString
                     end
                 | None => EmptyString
                 end)
       end)).
  { intros sign body; rewrite (span_digits_app_blank body w Hw).
    destruct (Re.span_digits body) as [ip rest]; cbn [fst snd].
    destruct ip; [reflexivity|].
    rewrite (after_char_app_blank "." rest w eq_refl Hw).
    destruct (after_char "." rest) as [r|]; [|reflexivity].
    rewrite (span_digits_app_blank r w Hw).
    destruct (Re.span_digits r); reflexivity. }
  destruct (after_char "-" y) as [r|]; apply Hbody.
Qed.

Lemma blank_no_digit : forall w,
  none_of visible w = true -> none_of isdigit w = true.
Proof.
  induction w as [|c w IH]; intros H; [reflexivity|].
  destruct (blank_head c w H) as [Hc Hw].
  cbn [none_of]; rewrite (space_not_digit c Hc), (IH Hw); reflexivity.
Qed.

Lemma search_number_app_blank : forall y w,
  none_of visible w = true -> Re.search_number (y ++ w) = Re.search_number y.
Proof.
  intros y w Hw; induction y as [|c y IH].
  - cbn [String.append].
    transitivity (@None string); [|reflexivity].
    apply search_number_none, blank_no_digit, Hw.
  - change (String c y ++ w) with (String c (y ++ w)).
    cbn [Re.search_number].
    change (String c (y ++ w)) with (String c y ++ w).
    rewrite (match_number_app_blank (String c y) w Hw), IH; reflexivity.
Qed.

Lemma search_number_blank_app : forall w y,
  none_of visible w = true -> Re.search_number (w ++ y) = Re.search_number y.
Proof.
  induction w as [|c w IH]; intros y Hw; [reflexivity|].
  destruct (blank_head c w Hw) as [Hc Hw'].
  change (String c w ++ y) with (String c (w ++ y)).
  cbn [Re.search_number].
  assert (E : Re.match_number (String c (w ++ y)) = None).
  { unfold Re.match_number; cbn [after_char].
    destruct (space_not_numeral c Hc) as (-> & _ & Hn & _).
    cbn [Re.span_digits]; rewrite Hn; reflexivity. }
  rewrite E; apply IH, Hw'.
Qed.

Lemma lstrip_decompose : forall s,
  exists w, none_of visible w = true /\ s = w ++ lstrip s.
Proof.
  induction s as [|c s (w & Hw & E)]; [exists ""; split; reflexivity|].
  cbn [lstrip]; destruct (isspace c) eqn:Hc.
  - exists (String c w); split.
    + cbn [none_of]; unfold visible at 1; rewrite Hc; exact Hw.
    + cbn [String.append]; rewrite <- E; reflexivity.
  - exists ""; split; reflexivity.
Qed.

Lemma rstrip_decompose : forall s,
  exists w, none_of visible w = true /\ s = rstrip s ++ w.
Proof.
  induction s as [|c s (w & Hw & E)]; [exists ""; split; reflexivity|].
  rewrite rstrip_unfold; destruct (rstrip s) as [|d r].
  - cbn [String.append] in E; subst w.
    destruct (isspace c) eqn:Hc.
    + exists (String c s); split; [|reflexivity].
      cbn [none_of]; unfold visible at 1; rewrite Hc; exact Hw.
    + exists s; split; [exact Hw | reflexivity].
  - exists w; split; [exact Hw|].
    cbn [String.append]; cbn [String.append] in E; rewrite <- E; reflexivity.
Qed.

Lemma remove_char_app : forall c a b,
  remove_char c (a ++ b) = remove_char c a ++ remove_char c b.
Proof.
  intros c a b; induction a as [|d a IH]; cbn [String.append remove_char];
    [reflexivity|].
  destruct (Ascii.eqb c d); [exact IH|].
  cbn [String.append]; rewrite IH; reflexivity.
Qed.

Lemma number_text_app : forall a b,
  number_text (a ++ b) = number_text a ++ number_text b.
Proof.
  intros a b; unfold number_text.
  rewrite lower_app, !remove_char_app; reflexivity.
Qed.

Lemma number_text_blank : forall w,
  none_of visible w = true -> number_text w = w.
Proof.
  induction w as [|c w IH]; intros H; [reflexivity|].
  destruct (blank_head c w H) as [Hc Hw].
  destruct (space_not_numeral c Hc) as (_ & _ & _ & E1 & E2).
  unfold number_text in *; cbn [lower].
  assert (Hl : lower_char c = c) by (revert Hc; all_chars c; congruence).
  rewrite Hl; cbn [remove_char]; rewrite E1; cbn [remove_char]; rewrite E2.
  rewrite (IH Hw); reflexivity.
Qed.

(** The search sees the same number with or without the blanks around the
    input. *)
Lemma search_number_text_strip : forall raw,
  Re.search_number (number_text (strip raw))
  = Re.search_number (number_text raw).
Proof.
  intros raw; unfold strip.
  destruct (lstrip_decompose raw) as (w1 & Hw1 & E1).
  destruct (rstrip_decompose (lstrip raw)) as (w2 & Hw2 & E2).
  rewrite E1 at 2; rewrite E2 at 2.
  rewrite !number_text_app, (number_text_blank w1 Hw1),
          (number_text_blank w2 Hw2).
  rewrite search_number_blank_app, search_number_app_blank by assumption.
  reflexivity.
Qed.

Lemma parse_number_by_search : forall raw,
  _parse_number (Some raw)
  = parse_found (Re.search_number (number_text raw)).
Proof.
  intros raw; rewrite <- search_number_text_strip.
  unfold _parse_number, parse_found, number_text.
  destruct (lower (strip raw)) eqn:E; [reflexivity|].
  cbn [truthy negb]; reflexivity.
Qed.

Lemma remove_char_idempotent : forall c s,
  remove_char c (remove_char c s) = remove_char c s.
Proof.
  intros c s; induction s as [|d s IH]; cbn [remove_char]; [reflexivity|].
  destruct (Ascii.eqb c d) eqn:E; [exact IH|].
  cbn [remove_char]; rewrite E, IH; reflexivity.
Qed.

Lemma remove_char_comm : forall c d s,
  remove_char c (remove_char d s) = remove_char d (remove_char c s).
Proof.
  intros c d s; induction s as [|e s IH]; cbn [remove_char]; [reflexivity|].
  destruct (Ascii.eqb d e) eqn:E1, (Ascii.eqb c e) eqn:E2;
    cbn [remove_char]; rewrite ?E1, ?E2, IH; reflexivity.
Qed.

Lemma lower_remove_percent : forall s,
  lower (remove_char "%" s) = remove_char "%" (lower s).
Proof.
  induction s as [|c s IH]; cbn [remove_char lower]; [reflexivity|].
  destruct (sign_lower_char c) as [-> _].
  destruct (Ascii.eqb "%" c); [exact IH|].
  cbn [lower]; rewrite IH; reflexivity.
Qed.

Lemma lower_remove_tilde : forall s,
  lower (remove_char "~" s) = remove_char "~" (lower s).
Proof.
  induction s as [|c s IH]; cbn [remove_char lower]; [reflexivity|].
  destruct (sign_lower_char c) as [_ ->].
  destruct (Ascii.eqb "~" c); [exact IH|].
  cbn [lower]; rewrite IH; reflexivity.
Qed.

(** X24. The number read from an input does not depend on the blanks around
    it, on letter case, or on percent and tilde signs wherever they stand:
    removing them from the input changes nothing. *)
Theorem parse_number_ignores_decoration :
  forall raw : string,
    _parse_number (Some (strip raw)) = _parse_number (Some raw)
    /\ _parse_number (Some (lower raw)) = _parse_number (Some raw)
    /\ _parse_number (Some (remove_char "%" raw)) = _parse_number (Some raw)
    /\ _parse_number (Some (remove_char "~" raw)) = _parse_number (Some raw).
Proof.
  intros raw; rewrite !parse_number_by_search.
  split; [rewrite search_number_text_strip; reflexivity|].
  unfold number_text; split; [rewrite lower_idempotent; reflexivity|].
  split.
  - rewrite lower_remove_percent, remove_char_idempotent; reflexivity.
  - rewrite lower_remove_tilde, (remove_char_comm "%" "~"),
            remove_char_idempotent; reflexivity.
Qed.

Example parse_number_decorated :
  _parse_number (Some "  ~4.5% ") = _parse_number (Some "4.5")
  /\ _parse_number (Some "1~5") = _parse_number (Some "15")
  /\ _parse_number (Some "P/E 12X") = _parse_number (Some "p/e 12x").
Proof. repeat split. Qed.

(** ** Letter case of the thesis *)

Lemma terminator_lower_char : forall c, terminator (lower_char c) = terminator c.
Proof. intros c; all_chars c; reflexivity. Qed.

Lemma newline_lower_char : forall c,
  Ascii.eqb (lower_char c) newline = Ascii.eqb c newline.
Proof. intros c; all_chars c; reflexivity. Qed.

Lemma truthy_lower : forall s, truthy (lower s) = truthy s.
Proof. intros [|c s]; reflexivity. Qed.

Lemma push_lower : forall c parts,
  Re.push (lower_char c) (map lower parts) = map lower (Re.push c parts).
Proof. intros c [|p ps]; reflexivity. Qed.

Lemma starts_with_lower : forall p s,
  (forall c, p (lower_char c) = p c) ->
  Re.starts_with p (lower s) = Re.starts_with p s.
Proof. intros p [|c s] H; simpl; [reflexivity | apply H]. Qed.

Lemma split_runs_lower : forall p s,
  (forall c, p (lower_char c) = p c) ->
  Re.split_runs p (lower s) = map lower (Re.split_runs p s).
Proof.
  intros p s H; induction s as [|c s IH]; [reflexivity|].
  cbn [lower Re.split_runs]; rewrite H, (starts_with_lower p s H), IH.
  destruct (p c); [destruct (Re.starts_with p s); reflexivity|].
  apply push_lower.
Qed.

Lemma blanks_to_newline_lower : forall s,
  Re.blanks_to_newline (lower s) = Re.blanks_to_newline s.
Proof.
  induction s as [|c s IH]; [reflexivity|].
  cbn [lower Re.blanks_to_newline].
  rewrite isspace_lower_char, IH, newline_lower_char; reflexivity.
Qed.

Lemma split_blank_from_lower : forall s skip,
  Re.split_blank_from skip (lower s) = map lower (Re.split_blank_from skip s).
Proof.
  induction s as [|c s IH]; intros skip; [reflexivity|].
  cbn [lower Re.split_blank_from].
  destruct skip as [|k]; [|apply IH].
  rewrite newline_lower_char, blanks_to_newline_lower.
  destruct (Ascii.eqb c newline);
    [destruct (Re.blanks_to_newline s); [rewrite IH; reflexivity|]|];
    rewrite IH; apply push_lower.
Qed.

Lemma tokenize_words_lower : forall s,
  _tokenize_words (lower s) = _tokenize_words s.
Proof. intros s; unfold _tokenize_words; rewrite lower_idempotent; reflexivity. Qed.

Lemma count_sentences_lower : forall s,
  _count_sentences (lower s) = map lower (_count_sentences s).
Proof.
  intros s; unfold _count_sentences.
  rewrite (split_runs_lower terminator s terminator_lower_char).
  induction (Re.split_runs terminator s) as [|p ps IH]; [reflexivity|].
  cbn [map filter]; rewrite strip_lower, truthy_lower.
  destruct (truthy (strip p)); cbn [map]; rewrite IH, ?strip_lower; reflexivity.
Qed.

Lemma count_paragraphs_lower : forall s,
  _count_paragraphs (lower s) = _count_paragraphs s.
Proof.
  intros s; unfold _count_paragraphs, Re.split_blank_lines.
  rewrite split_blank_from_lower, strip_lower, truthy_lower.
  assert (E : filter (fun p => truthy (strip p))
                (map lower (Re.split_blank_from 0 s))
              = map lower (filter (fun p => truthy (strip p))
                             (Re.split_blank_from 0 s))).
  { induction (Re.split_blank_from 0 s) as [|p ps IH]; [reflexivity|].
    cbn [map filter]; rewrite strip_lower, truthy_lower.
    destruct (truthy (strip p)); cbn [map]; rewrite IH; reflexivity. }
  rewrite E; destruct (filter _ (Re.split_blank_from 0 s)); cbn [map nonempty];
    [reflexivity|].
  unfold len; cbn [List.length]; rewrite length_map; reflexivity.
Qed.

Lemma score_understandable_lower : forall thesis,
  _score_understandable (lower thesis) = _score_understandable thesis.
Proof.
  intros thesis; unfold _score_understandable.
  rewrite strip_lower, truthy_lower, count_sentences_lower,
          tokenize_words_lower, count_paragraphs_lower.
  destruct (_count_sentences (strip thesis)) as [|s0 rest];
    cbn [map nonempty index0 bind]; rewrite ?tokenize_words_lower;
    reflexivity.
Qed.

(** X25. The analysis ignores the letter case of the thesis: the snapshot
    of a thesis and that of the same thesis in lowercase are the same, up
    to and including the report. *)
Theorem four_filters_ignores_case :
  forall (thesis : string) (pe_text fcf_yield_text : option string),
    four_filters (lower thesis) pe_text fcf_yield_text
    = four_filters thesis pe_text fcf_yield_text.
Proof.
  intros thesis pe_text fy_text.
  assert (Em : _score_moat (lower thesis) = _score_moat thesis)
    by (unfold _score_moat; rewrite lower_idempotent; reflexivity).
  assert (Eg : _score_management (lower thesis) = _score_management thesis)
    by (unfold _score_management; rewrite lower_idempotent; reflexivity).
  assert (Eb : _rank_biases (lower thesis) = _rank_biases thesis)
    by (unfold _rank_biases; rewrite lower_idempotent; reflexivity).
  assert (Ei : forall m, _invert_question (lower thesis) m
                         = _invert_question thesis m)
    by (intros m; unfold _invert_question; rewrite lower_idempotent;
        reflexivity).
  destruct (four_filters_total thesis pe_text fy_text)
    as (u & s & Hu & Hs & Hf).
  destruct (four_filters_total (lower thesis) pe_text fy_text)
    as (u' & s' & Hu' & Hs' & Hf').
  rewrite score_understandable_lower, Hu in Hu'; injection Hu' as <-.
  rewrite Hs in Hs'; injection Hs' as <-.
  rewrite Hf, Hf', Em, Eg, Eb, Ei; reflexivity.
Qed.

(** ** A short thesis on one line *)













